(** * Shot value analysis: a shallow embedding of [shot_value.py]

    The play-by-play tables handled by the script are pandas data frames read
    from the season CSV files.  A table is modelled as the list of its rows in
    file order, a row as a record with one field per column that the script
    looks at, and a cell as an [option]: [None] is the missing value (NaN)
    that pandas stores for an empty CSV cell.

    Every column has the dtype it has in the season files, also in a table
    where it happens to be empty throughout: names, tags, outcomes and labels
    are object columns holding strings, distances, seconds and scores are
    numeric columns.

    Numbers: counts ([len] of a selection, the integer numpy arrays of the
    tallies) are [nat]; scores and the possession arithmetic, which may go
    negative, are [Z]; shot distances (a float column) are rationals [Q];
    the results of numpy's float divisions are [npfloat]. *)

From Stdlib Require Import List String Ascii Bool Arith ZArith QArith Lia Lqa.
From Stdlib Require Import Permutation.
Import ListNotations.

Local Open Scope string_scope.
Local Open Scope list_scope.
Local Open Scope nat_scope.

(** ** Cells and the comparisons pandas performs on them *)

(** [series == 'text']: a missing cell compares unequal to every string. *)
Definition cell_eq (c : option string) (s : string) : bool :=
  match c with
  | Some x => String.eqb x s
  | None => false
  end.

(** [~pd.isnull(series)]. *)
Definition notnull {A : Type} (c : option A) : bool :=
  match c with
  | Some _ => true
  | None => false
  end.

(** [series != 0] on a numeric column: NaN differs from zero. *)
Definition cell_ne0 (c : option Z) : bool :=
  match c with
  | Some z => negb (z =? 0)%Z
  | None => true
  end.

(** Strict comparison of two rationals, on cross products like [Qle_bool]. *)
Definition Qlt_bool (x y : Q) : bool :=
  (Qnum x * QDen y <? Qnum y * QDen x)%Z.

(** [series <= k] and [series > k] on the distance column: every comparison
    with NaN is false. *)
Definition dist_le (d : option Q) (k : Q) : bool :=
  match d with
  | Some x => Qle_bool x k
  | None => false
  end.

Definition dist_gt (d : option Q) (k : Q) : bool :=
  match d with
  | Some x => Qlt_bool k x
  | None => false
  end.

(** Python's [pat in s] on strings: [pat] occurs in [s] as a substring. *)
Fixpoint contains (pat s : string) : bool :=
  if String.prefix pat s then true
  else match s with
       | EmptyString => false
       | String _ s' => contains pat s'
       end.

(** [Series.str.contains(pat)] searches for [pat] as a regular expression
    ([regex=True] is the default and the script never changes it).  The
    matcher below covers the patterns whose only metacharacter is the dot,
    which stands for any character except a line feed; [re_literal] holds of
    the patterns with no metacharacter at all. *)
Definition re_meta (c : ascii) : bool :=
  existsb (Ascii.eqb c)
    ["."; "^"; "$"; "*"; "+"; "?"; "{"; "}"; "["; "]"; "\"; "|"; "("; ")"]%char.

Fixpoint re_literal (pat : string) : bool :=
  match pat with
  | EmptyString => true
  | String c pat' => negb (re_meta c) && re_literal pat'
  end.

Definition line_feed : ascii := ascii_of_nat 10.

Definition re_char (p a : ascii) : bool :=
  if Ascii.eqb p "."%char then negb (Ascii.eqb a line_feed) else Ascii.eqb p a.

Fixpoint re_match_here (pat s : string) : bool :=
  match pat with
  | EmptyString => true
  | String p pat' =>
      match s with
      | EmptyString => false
      | String a s' => re_char p a && re_match_here pat' s'
      end
  end.

Fixpoint re_search (pat s : string) : bool :=
  if re_match_here pat s then true
  else match s with
       | EmptyString => false
       | String _ s' => re_search pat s'
       end.

(** [series.str.contains(pat, na=False)]: a missing cell does not match. *)
Definition str_contains_na_false (c : option string) (pat : string) : bool :=
  match c with
  | Some s => re_search pat s
  | None => false
  end.

(** [series.str.contains(pat)] combined with [&]: the missing result of a
    missing cell is filled with [False] by the logical operator. *)
Definition str_contains (c : option string) (pat : string) : bool :=
  match c with
  | Some s => re_search pat s
  | None => false
  end.

(** ** Tables *)

(** The columns of a season file that the script reads. *)
Module Raw.
Record event : Type := {
  AwayPlay : option string;
  AwayScore : option Z;
  HomeScore : option Z;
  Shooter : option string;
  ShotType : option string;
  ShotOutcome : option string;
  ShotDist : option Q;
  Rebounder : option string;
  ReboundType : option string;
  SecLeft : option Z;
  TurnoverType : option string;
  FreeThrowNum : option string;
  FreeThrowOutcome : option string
}.
End Raw.

(** A row of the cleaned table, its seven columns in positional order
    (columns 0 to 6 of [iloc]). *)
Record row : Type := {
  Shooter : option string;
  ShotType : option string;
  ShotOutcome : option string;
  ShotDist : option Q;
  Rebounder : option string;
  ReboundType : option string;
  SecLeft : option Z
}.

(** ** clean_data *)

(** [data[['Shooter', ..., 'SecLeft']]] on one row. *)
Definition select_columns (e : Raw.event) : row :=
  {| Shooter := Raw.Shooter e;
     ShotType := Raw.ShotType e;
     ShotOutcome := Raw.ShotOutcome e;
     ShotDist := Raw.ShotDist e;
     Rebounder := Raw.Rebounder e;
     ReboundType := Raw.ReboundType e;
     SecLeft := Raw.SecLeft e |}.

Definition b2n (b : bool) : nat := if b then 1 else 0.

(** Number of cells of a row that are not missing. *)
Definition non_na (r : row) : nat :=
  b2n (notnull (Shooter r)) + b2n (notnull (ShotType r))
  + b2n (notnull (ShotOutcome r)) + b2n (notnull (ShotDist r))
  + b2n (notnull (Rebounder r)) + b2n (notnull (ReboundType r))
  + b2n (notnull (SecLeft r)).

(** [dropna(thresh=n)] keeps the rows with at least [n] cells present. *)
Definition dropna (thresh : nat) (t : list row) : list row :=
  filter (fun r => thresh <=? non_na r) t.

Definition clean_data (data : list Raw.event) (team : string) : list row :=
  let filtered := map select_columns data in
  let filtered := dropna 2 filtered in
  if negb (String.eqb team "ALL") then
    filter (fun r => str_contains_na_false (Shooter r) team
                     || str_contains_na_false (Rebounder r) team) filtered
  else filtered.

(** ** Exceptions *)

(** The two exceptions the analysed functions can raise on a table of the
    shape above: an [iloc] position past the last row, and [in] applied to a
    missing (float) cell. *)
Inductive exn : Type :=
| IndexError
| TypeError.

Inductive outcome (A : Type) : Type :=
| Returns (a : A)
| Raises (e : exn).

Arguments Returns {A} a.
Arguments Raises {A} e.

Definition bind {A B : Type} (m : outcome A) (k : A -> outcome B) : outcome B :=
  match m with
  | Returns a => k a
  | Raises e => Raises e
  end.

Notation "x <- m ;; k" := (bind m (fun x => k))
  (at level 61, m at next level, right associativity).

(** A Python list comprehension or [for] loop that builds a list: the first
    exception aborts it. *)
Fixpoint for_each {A B : Type} (f : A -> outcome B) (l : list A)
  : outcome (list B) :=
  match l with
  | [] => Returns []
  | a :: l' => b <- f a ;; bs <- for_each f l' ;; Returns (b :: bs)
  end.

(** ** numpy floats *)

(** A float64 is a finite value, an infinity or NaN.  Finite values are
    rationals; signed zeros are not told apart. *)
Inductive npfloat : Type :=
| Fin (q : Q)
| PInf
| NInf
| NaN.

Section Float.

(** Rounding of an exact result to the nearest float64. *)
Variable rnd : Q -> Q.

(** [x / y] on numpy integers or integer arrays: true division in float64.
    A zero divisor raises nothing, it gives NaN or an infinity (with a
    RuntimeWarning). *)
Definition np_true_divide (x y : Z) : npfloat :=
  if (y =? 0)%Z then
    if (x =? 0)%Z then NaN else if (0 <? x)%Z then PInf else NInf
  else Fin (rnd (inject_Z x / inject_Z y)).

Definition Qsign_pos (q : Q) : bool := Qlt_bool 0 q.
Definition Qis_zero (q : Q) : bool := Qeq_bool q 0.

Definition np_neg_inf (a : npfloat) : npfloat :=
  match a with
  | PInf => NInf
  | NInf => PInf
  | other => other
  end.

(** An infinity times a finite value. *)
Definition inf_times (i : npfloat) (q : Q) : npfloat :=
  if Qis_zero q then NaN else if Qsign_pos q then i else np_neg_inf i.

Definition np_mul (a b : npfloat) : npfloat :=
  match a, b with
  | NaN, _ | _, NaN => NaN
  | Fin x, Fin y => Fin (rnd (x * y))
  | Fin x, i => inf_times i x
  | i, Fin y => inf_times i y
  | PInf, PInf | NInf, NInf => PInf
  | PInf, NInf | NInf, PInf => NInf
  end.

Definition np_add (a b : npfloat) : npfloat :=
  match a, b with
  | NaN, _ | _, NaN => NaN
  | Fin x, Fin y => Fin (rnd (x + y))
  | PInf, NInf | NInf, PInf => NaN
  | PInf, _ | _, PInf => PInf
  | NInf, _ | _, NInf => NInf
  end.

End Float.

(** ** calc_ppp *)

Local Open Scope Z_scope.

Definition len {A : Type} (l : list A) : Z := Z.of_nat (List.length l).

(** [series.sum()]: missing values are skipped. *)
Definition sum_skipna (l : list (option Z)) : Z :=
  fold_right (fun c acc => match c with Some z => z + acc | None => acc end) 0 l.

Definition shot (e : Raw.event) : bool := notnull (Raw.Shooter e).
Definition turnover (e : Raw.event) : bool := notnull (Raw.TurnoverType e).
Definition ft_1_of_2 (e : Raw.event) : bool := cell_eq (Raw.FreeThrowNum e) "1 of 2".
Definition ft_1_of_3 (e : Raw.event) : bool := cell_eq (Raw.FreeThrowNum e) "1 of 3".
Definition ft_2_of_3 (e : Raw.event) : bool := cell_eq (Raw.FreeThrowNum e) "2 of 3".
Definition ft_miss (e : Raw.event) : bool := cell_eq (Raw.FreeThrowOutcome e) "miss".
Definition orb (e : Raw.event) : bool := cell_eq (Raw.ReboundType e) "offensive".
Definition not_end_of_q (e : Raw.event) : bool := cell_ne0 (Raw.SecLeft e).

Definition pts_data (data : list Raw.event) : list Raw.event :=
  filter (fun e => cell_eq (Raw.AwayPlay e) "End of Game") data.

Definition pts (data : list Raw.event) : Z :=
  sum_skipna (map Raw.AwayScore (pts_data data))
  + sum_skipna (map Raw.HomeScore (pts_data data)).

Definition poss_data (data : list Raw.event) : list Raw.event :=
  filter (fun e => shot e || turnover e || ft_1_of_2 e || ft_1_of_3 e) data.

Definition orbs_data (data : list Raw.event) : list Raw.event :=
  filter (fun e => orb e && not_end_of_q e) data.

Definition ft_orbs_data (data : list Raw.event) : list Raw.event :=
  filter (fun e => ft_miss e && (ft_1_of_2 e || ft_1_of_3 e || ft_2_of_3 e)) data.

Definition total_orbs (data : list Raw.event) : Z :=
  len (orbs_data data) - len (ft_orbs_data data).

Definition total_poss (data : list Raw.event) : Z :=
  len (poss_data data) - total_orbs data.

(** [pts] is the sum of two numeric columns, a numpy scalar, so the final
    [/] is numpy's true division and not Python's: on a zero divisor it warns
    and returns NaN or an infinity where Python's would raise
    ZeroDivisionError.  (A file with a header and no row would be read with
    object columns; the properties below are stated for tables with at least
    one row.) *)
Definition calc_ppp (rnd : Q -> Q) (data : list Raw.event) : outcome npfloat :=
  Returns (np_true_divide rnd (pts data) (total_poss data)).

Local Close Scope Z_scope.

(** ** Shot categories *)

(** The seven keys of the dictionaries built by [calc_shots] and [calc_rebs],
    in the order in which both functions insert them. *)
Inductive category : Type :=
| K2_0_5
| K2_6_10
| K2_11_15
| K2_over_15
| K3_under_26
| K3_26_30
| K3_over_30.

Definition key (c : category) : string :=
  match c with
  | K2_0_5 => "2-pt 0-5 ft"
  | K2_6_10 => "2-pt 6-10 ft"
  | K2_11_15 => "2-pt 11-15 ft"
  | K2_over_15 => "2-pt >15 ft"
  | K3_under_26 => "3-pt <26 ft"
  | K3_26_30 => "3-pt 26-30 ft"
  | K3_over_30 => "3-pt >30 ft"
  end.

Definition keys : list category :=
  [K2_0_5; K2_6_10; K2_11_15; K2_over_15; K3_under_26; K3_26_30; K3_over_30].

Definition category_eqb (a b : category) : bool :=
  match a, b with
  | K2_0_5, K2_0_5 | K2_6_10, K2_6_10 | K2_11_15, K2_11_15
  | K2_over_15, K2_over_15 | K3_under_26, K3_under_26
  | K3_26_30, K3_26_30 | K3_over_30, K3_over_30 => true
  | _, _ => false
  end.

(** ** calc_shots *)

(** The numpy array of a key: attempts at index 0, makes at index 1. *)
Record tally : Type := {
  attempts : nat;
  makes : nat
}.

Definition two_pt_zero_to_five_ft (year : list row) : list row :=
  filter (fun r => dist_le (ShotDist r) 5) year.

Definition two_pt_six_to_ten_ft (year : list row) : list row :=
  filter (fun r => dist_gt (ShotDist r) 5 && dist_le (ShotDist r) 10) year.

Definition two_pt_eleven_to_fifteen_ft (year : list row) : list row :=
  filter (fun r => dist_gt (ShotDist r) 10 && dist_le (ShotDist r) 15) year.

Definition two_pt_fifteen_plus_ft (year : list row) : list row :=
  filter (fun r => str_contains (ShotType r) "2-pt" && dist_gt (ShotDist r) 15) year.

Definition three_pt_twenty_five_or_less_ft (year : list row) : list row :=
  filter (fun r => str_contains (ShotType r) "3-pt" && dist_le (ShotDist r) 25) year.

Definition three_pt_twenty_six_to_thirty_ft (year : list row) : list row :=
  filter (fun r => dist_gt (ShotDist r) 25 && dist_le (ShotDist r) 30) year.

Definition three_pt_thirty_plus_ft (year : list row) : list row :=
  filter (fun r => dist_gt (ShotDist r) 30) year.

(** [selection[selection['ShotOutcome'] == 'make']]. *)
Definition made (selection : list row) : list row :=
  filter (fun r => cell_eq (ShotOutcome r) "make") selection.

Definition count_shots (selection : list row) : tally :=
  {| attempts := List.length selection;
     makes := List.length (made selection) |}.

(** The dictionary [shots] of one season. *)
Definition calc_shots_year (year : list row) (c : category) : tally :=
  match c with
  | K2_0_5 => count_shots (two_pt_zero_to_five_ft year)
  | K2_6_10 => count_shots (two_pt_six_to_ten_ft year)
  | K2_11_15 => count_shots (two_pt_eleven_to_fifteen_ft year)
  | K2_over_15 => count_shots (two_pt_fifteen_plus_ft year)
  | K3_under_26 => count_shots (three_pt_twenty_five_or_less_ft year)
  | K3_26_30 => count_shots (three_pt_twenty_six_to_thirty_ft year)
  | K3_over_30 => count_shots (three_pt_thirty_plus_ft year)
  end.

Definition calc_shots (data : list (list row)) : list (category -> tally) :=
  map calc_shots_year data.

(** ** calc_rebs *)

(** [year.iloc[i, _]]: positions past the end raise. *)
Definition iloc (year : list row) (i : nat) : outcome row :=
  match nth_error year i with
  | Some r => Returns r
  | None => Raises IndexError
  end.

(** [rebs[k] += off_reb]. *)
Definition credit (rebs : category -> nat) (k : category) (off_reb : nat)
  : category -> nat :=
  fun c => if category_eqb c k then rebs c + off_reb else rebs c.

(** The [if]/[elif] chain that picks the key of a missed shot.  The test
    ['2-pt' in shot_type] raises when the type cell is missing. *)
Definition missed_shot_key (shot_type : option string) (shot_dist : option Q)
  : outcome category :=
  if dist_le shot_dist 5 then Returns K2_0_5
  else if dist_le shot_dist 10 then Returns K2_6_10
  else if dist_le shot_dist 15 then Returns K2_11_15
  else match shot_type with
       | None => Raises TypeError
       | Some tag =>
           if contains "2-pt" tag then Returns K2_over_15
           else if dist_le shot_dist 25 then Returns K3_under_26
           else if dist_le shot_dist 30 then Returns K3_26_30
           else Returns K3_over_30
       end.

(** One turn of the loop [for i in range(len(year))]. *)
Definition rebs_step (year : list row) (i : nat) (rebs : category -> nat)
  : outcome (category -> nat) :=
  r <- iloc year i ;;
  if cell_eq (ShotOutcome r) "miss" then
    let shot_type := ShotType r in
    let shot_dist := ShotDist r in
    next <- iloc year (i + 1) ;;
    let off_reb :=
      if cell_eq (ReboundType next) "offensive" && cell_ne0 (SecLeft next)
      then 1 else 0 in
    k <- missed_shot_key shot_type shot_dist ;;
    Returns (credit rebs k off_reb)
  else Returns rebs.

Definition for_range {S : Type} (n : nat) (body : nat -> S -> outcome S)
  (init : S) : outcome S :=
  fold_left (fun acc i => s <- acc ;; body i s) (seq 0 n) (Returns init).

Definition calc_rebs_year (year : list row) : outcome (category -> nat) :=
  for_range (List.length year) (rebs_step year) (fun _ => 0).

Definition calc_rebs (data : list (list row))
  : outcome (list (category -> nat)) :=
  for_each calc_rebs_year data.

(** ** calc_exp_pts and calc_exp_pts_w_orb *)

(** [arr[i]] on an array built from the seven keys. *)
Definition item (arr : list npfloat) (i : nat) : npfloat := nth i arr NaN.

Fixpoint array_divide (rnd : Q -> Q) (xs ys : list nat) : list npfloat :=
  match xs, ys with
  | x :: xs', y :: ys' =>
      np_true_divide rnd (Z.of_nat x) (Z.of_nat y) :: array_divide rnd xs' ys'
  | _, _ => []
  end.

Section ExpectedPoints.

Variable rnd : Q -> Q.

Definition calc_exp_pts_year (year : category -> tally)
  : category -> npfloat :=
  let attempts := map (fun shot_type => attempts (year shot_type)) keys in
  let makes := map (fun shot_type => makes (year shot_type)) keys in
  let make_percentages := array_divide rnd makes attempts in
  fun c =>
    match c with
    | K2_0_5 => np_mul rnd (Fin 2) (item make_percentages 0)
    | K2_6_10 => np_mul rnd (Fin 2) (item make_percentages 1)
    | K2_11_15 => np_mul rnd (Fin 2) (item make_percentages 2)
    | K2_over_15 => np_mul rnd (Fin 2) (item make_percentages 3)
    | K3_under_26 => np_mul rnd (Fin 3) (item make_percentages 4)
    | K3_26_30 => np_mul rnd (Fin 3) (item make_percentages 5)
    | K3_over_30 => np_mul rnd (Fin 3) (item make_percentages 6)
    end.

Definition calc_exp_pts (shots : list (category -> tally))
  : list (category -> npfloat) :=
  map calc_exp_pts_year shots.

Definition calc_exp_pts_w_orb_year (shots_i : category -> tally)
  (rebs_i : category -> nat) (ppp_i : npfloat) : category -> npfloat :=
  let attempts := map (fun shot_type => attempts (shots_i shot_type)) keys in
  let makes := map (fun shot_type => makes (shots_i shot_type)) keys in
  let make_percentages := array_divide rnd makes attempts in
  let orbs := map (fun shot_type => rebs_i shot_type) keys in
  let orb_percentages := array_divide rnd orbs attempts in
  let with_orb (value : Q) (j : nat) :=
    np_add rnd (np_mul rnd (Fin value) (item make_percentages j))
               (np_mul rnd (item orb_percentages j) ppp_i) in
  fun c =>
    match c with
    | K2_0_5 => with_orb 2%Q 0
    | K2_6_10 => with_orb 2%Q 1
    | K2_11_15 => with_orb 2%Q 2
    | K2_over_15 => with_orb 2%Q 3
    | K3_under_26 => with_orb 3%Q 4
    | K3_26_30 => with_orb 3%Q 5
    | K3_over_30 => with_orb 3%Q 6
    end.

(** [rebs[i]] and [ppp[i]]: a list index past the end raises. *)
Definition list_item {A : Type} (l : list A) (i : nat) : outcome A :=
  match nth_error l i with
  | Some a => Returns a
  | None => Raises IndexError
  end.

Definition calc_exp_pts_w_orb (shots : list (category -> tally))
  (rebs : list (category -> nat)) (ppp : list npfloat)
  : outcome (list (category -> npfloat)) :=
  for_each (fun i =>
              shots_i <- list_item shots i ;;
              rebs_i <- list_item rebs i ;;
              ppp_i <- list_item ppp i ;;
              Returns (calc_exp_pts_w_orb_year shots_i rebs_i ppp_i))
           (seq 0 (List.length shots)).

End ExpectedPoints.

(** ** Vocabulary of the properties *)

(** The row test behind each of the seven selections of [calc_shots]. *)
Definition selects (c : category) (r : row) : bool :=
  match c with
  | K2_0_5 => dist_le (ShotDist r) 5
  | K2_6_10 => dist_gt (ShotDist r) 5 && dist_le (ShotDist r) 10
  | K2_11_15 => dist_gt (ShotDist r) 10 && dist_le (ShotDist r) 15
  | K2_over_15 => str_contains (ShotType r) "2-pt" && dist_gt (ShotDist r) 15
  | K3_under_26 => str_contains (ShotType r) "3-pt" && dist_le (ShotDist r) 25
  | K3_26_30 => dist_gt (ShotDist r) 25 && dist_le (ShotDist r) 30
  | K3_over_30 => dist_gt (ShotDist r) 30
  end.

(** A shot is counted once when the tallies of the table that holds just
    this shot show one attempt under one key and none under the others. *)
Definition counted_once (r : row) : Prop :=
  exists k, forall c,
    attempts (calc_shots_year [r] c) = b2n (category_eqb c k).

(** In how many of the seven attempt tallies a row is counted. *)
Definition times_counted (r : row) : nat :=
  list_sum (map (fun c => attempts (calc_shots_year [r] c)) keys).

(** Sum of the attempts over the seven keys of a season. *)
Definition total_attempts (year : list row) : nat :=
  list_sum (map (fun c => attempts (calc_shots_year year c)) keys).

(** Shots whose tag and distance agree with one key only: two-pointers from
    at most 25 ft and three-pointers from beyond 15 ft. *)
Definition regular_shot (tag : string) (d : Q) : Prop :=
  (contains "2-pt" tag = true /\ contains "3-pt" tag = false /\ d <= 25)%Q
  \/ (contains "2-pt" tag = false /\ contains "3-pt" tag = true /\ 15 < d)%Q.

Definition shot_event (shooter tag result : string) (d : Q) (sec : Z) : row :=
  {| Shooter := Some shooter; ShotType := Some tag;
     ShotOutcome := Some result; ShotDist := Some d;
     Rebounder := None; ReboundType := None; SecLeft := Some sec |}.

Definition rebound_event (rebounder kind : string) (sec : Z) : row :=
  {| Shooter := None; ShotType := None; ShotOutcome := None; ShotDist := None;
     Rebounder := Some rebounder; ReboundType := Some kind;
     SecLeft := Some sec |}.

(** The six distance bands cut out by the thresholds 5, 10, 15, 25 and 30. *)
Inductive band : Type :=
| B0_5 | B5_10 | B10_15 | B15_25 | B25_30 | B30_up.

Definition band_of (d : Q) : band :=
  if Qle_bool d 5 then B0_5
  else if Qle_bool d 10 then B5_10
  else if Qle_bool d 15 then B10_15
  else if Qle_bool d 25 then B15_25
  else if Qle_bool d 30 then B25_30
  else B30_up.

(** The value of every threshold test, band by band. *)
Definition le_in_band (b : band) (k : nat) : bool :=
  match b, k with
  | B0_5, _ => true
  | B5_10, 5 => false
  | B5_10, _ => true
  | B10_15, (5 | 10) => false
  | B10_15, _ => true
  | B15_25, (5 | 10 | 15) => false
  | B15_25, _ => true
  | B25_30, 30 => true
  | B25_30, _ => false
  | B30_up, _ => false
  end.

(** A shot row whose distance cell is empty. *)
Definition shot_without_distance (shooter tag result : string) (sec : Z) : row :=
  {| Shooter := Some shooter; ShotType := Some tag;
     ShotOutcome := Some result; ShotDist := None;
     Rebounder := None; ReboundType := None; SecLeft := Some sec |}.

(** Rows on which outcome and distance are present together, the shot then
    being a regular one. *)
Definition regular_row (r : row) : Prop :=
  match ShotOutcome r, ShotDist r with
  | None, None => True
  | Some _, Some d => exists tag, ShotType r = Some tag /\ regular_shot tag d
  | _, _ => False
  end.

(** Rows with a populated shot outcome. *)
Definition with_outcome (year : list row) : list row :=
  filter (fun r => notnull (ShotOutcome r)) year.

(** The loop of [calc_rebs] read off the rows themselves: the row at hand,
    the rows after it and the counts so far.  [calc_rebs_year_scan] shows
    that it computes what the indexed loop computes. *)
Fixpoint scan (rows : list row) (rebs : category -> nat)
  : outcome (category -> nat) :=
  match rows with
  | [] => Returns rebs
  | r :: rest =>
      if cell_eq (ShotOutcome r) "miss" then
        match rest with
        | [] => Raises IndexError
        | next :: _ =>
            let off_reb :=
              if cell_eq (ReboundType next) "offensive"
                 && cell_ne0 (SecLeft next)
              then 1 else 0 in
            k <- missed_shot_key (ShotType r) (ShotDist r) ;;
            scan rest (credit rebs k off_reb)
        end
      else scan rest rebs
  end.

(** Missed shots that carry a distance and a tag naming their value. *)
Definition tagged_miss (r : row) : Prop :=
  ShotOutcome r = Some "miss" ->
  exists tag d, ShotType r = Some tag /\ ShotDist r = Some d
                /\ contains "2-pt" tag || contains "3-pt" tag = true.

(** Rows of a season file, one constructor per kind of play: only the cells
    of that kind are filled. *)
Definition shot_play (shooter tag result : string) (d : Q) (sec : Z)
  : Raw.event :=
  {| Raw.AwayPlay := None; Raw.AwayScore := None; Raw.HomeScore := None;
     Raw.Shooter := Some shooter; Raw.ShotType := Some tag;
     Raw.ShotOutcome := Some result; Raw.ShotDist := Some d;
     Raw.Rebounder := None; Raw.ReboundType := None; Raw.SecLeft := Some sec;
     Raw.TurnoverType := None; Raw.FreeThrowNum := None;
     Raw.FreeThrowOutcome := None |}.

Definition turnover_play (kind : string) (sec : Z) : Raw.event :=
  {| Raw.AwayPlay := None; Raw.AwayScore := None; Raw.HomeScore := None;
     Raw.Shooter := None; Raw.ShotType := None;
     Raw.ShotOutcome := None; Raw.ShotDist := None;
     Raw.Rebounder := None; Raw.ReboundType := None; Raw.SecLeft := Some sec;
     Raw.TurnoverType := Some kind; Raw.FreeThrowNum := None;
     Raw.FreeThrowOutcome := None |}.

Definition free_throw_play (label result : string) (sec : Z) : Raw.event :=
  {| Raw.AwayPlay := None; Raw.AwayScore := None; Raw.HomeScore := None;
     Raw.Shooter := None; Raw.ShotType := None;
     Raw.ShotOutcome := None; Raw.ShotDist := None;
     Raw.Rebounder := None; Raw.ReboundType := None; Raw.SecLeft := Some sec;
     Raw.TurnoverType := None; Raw.FreeThrowNum := Some label;
     Raw.FreeThrowOutcome := Some result |}.

Definition rebound_play (rebounder kind : string) (sec : Z) : Raw.event :=
  {| Raw.AwayPlay := None; Raw.AwayScore := None; Raw.HomeScore := None;
     Raw.Shooter := None; Raw.ShotType := None;
     Raw.ShotOutcome := None; Raw.ShotDist := None;
     Raw.Rebounder := Some rebounder; Raw.ReboundType := Some kind;
     Raw.SecLeft := Some sec;
     Raw.TurnoverType := None; Raw.FreeThrowNum := None;
     Raw.FreeThrowOutcome := None |}.

Definition end_of_game (away home : Z) : Raw.event :=
  {| Raw.AwayPlay := Some "End of Game"; Raw.AwayScore := Some away;
     Raw.HomeScore := Some home;
     Raw.Shooter := None; Raw.ShotType := None;
     Raw.ShotOutcome := None; Raw.ShotDist := None;
     Raw.Rebounder := None; Raw.ReboundType := None; Raw.SecLeft := Some 0%Z;
     Raw.TurnoverType := None; Raw.FreeThrowNum := None;
     Raw.FreeThrowOutcome := None |}.

(** The table of the possession scenario: two shots, a turnover, the first
    of two free throws and an offensive rebound with 120 seconds left. *)
Definition scenario_plays
  (shooter1 tag1 result1 : string) (d1 : Q) (sec1 : Z)
  (shooter2 tag2 result2 : string) (d2 : Q) (sec2 : Z)
  (lost : string) (sec3 : Z) (ft_result : string) (sec4 : Z)
  (rebounder : string) : list Raw.event :=
  [shot_play shooter1 tag1 result1 d1 sec1;
   shot_play shooter2 tag2 result2 d2 sec2;
   turnover_play lost sec3;
   free_throw_play "1 of 2" ft_result sec4;
   rebound_play rebounder "offensive" 120].

(** The identity cell names the team: the token occurs in it as a
    substring; a missing cell names no team. *)
Definition cell_contains (c : option string) (team : string) : bool :=
  match c with
  | Some s => contains team s
  | None => false
  end.

Definition names_team (team : string) (r : row) : bool :=
  cell_contains (Shooter r) team || cell_contains (Rebounder r) team.

Definition fewer_than_two_populated (r : row) : bool := non_na r <? 2.

(** Plays without any shot or rebound cell: turnovers, free throws, the
    end-of-game row and the like. *)
Definition no_shot_or_rebound_cell (e : Raw.event) : Prop :=
  Raw.Shooter e = None /\ Raw.ShotType e = None /\ Raw.ShotOutcome e = None
  /\ Raw.ShotDist e = None /\ Raw.Rebounder e = None
  /\ Raw.ReboundType e = None.

(** Free-throw labels that are not the last attempt of their trip. *)
Definition non_final_label (label : string) : Prop :=
  label = "1 of 2" \/ label = "1 of 3" \/ label = "2 of 3".

(** Labels that open a trip of two or three free throws. *)
Definition trip_opening_label (label : string) : Prop :=
  label = "1 of 2" \/ label = "1 of 3".

Definition is_miss (r : row) : bool := cell_eq (ShotOutcome r) "miss".

(** The row after a miss earns a recovery. *)
Definition recovers (next : row) : bool :=
  cell_eq (ReboundType next) "offensive" && cell_ne0 (SecLeft next).

(** Misses immediately followed by an offensive rebound that does not fall
    on the end of a period. *)
Fixpoint recoveries (rows : list row) : nat :=
  match rows with
  | [] => 0
  | r :: rest =>
      match rest with
      | [] => 0
      | next :: _ => b2n (is_miss r && recovers next) + recoveries rest
      end
  end.

(** The key chain of a missed shot does not reach the tag test, or finds a
    tag there. *)
Definition key_defined (r : row) : bool :=
  dist_le (ShotDist r) 15 || notnull (ShotType r).

(** Sum of a dictionary of counts over the seven keys. *)
Definition total (rebs : category -> nat) : nat := list_sum (map rebs keys).

(** Rows with a distance. *)
Definition with_distance (year : list row) : list row :=
  filter (fun r => notnull (ShotDist r)) year.

(** The factor of the make percentage in the entry of a key. *)
Definition point_value (c : category) : Q :=
  match c with
  | K2_0_5 | K2_6_10 | K2_11_15 | K2_over_15 => 2
  | K3_under_26 | K3_26_30 | K3_over_30 => 3
  end.

(** The loop of [calc_exp_pts_w_orb] read off the three lists side by side:
    [calc_exp_pts_w_orb_zip] shows that it computes what the indexed loop
    computes. *)
Fixpoint zip_seasons (rnd : Q -> Q) (shots : list (category -> tally))
  (rebs : list (category -> nat)) (ppp : list npfloat)
  : outcome (list (category -> npfloat)) :=
  match shots with
  | [] => Returns []
  | shots_i :: shots' =>
      match rebs, ppp with
      | rebs_i :: rebs', ppp_i :: ppp' =>
          rest <- zip_seasons rnd shots' rebs' ppp' ;;
          Returns (calc_exp_pts_w_orb_year rnd shots_i rebs_i ppp_i :: rest)
      | _, _ => Raises IndexError
      end
  end.

(** The entries of the seasons that all three lists cover. *)
Definition seasons_with_orb (rnd : Q -> Q) (shots : list (category -> tally))
  (rebs : list (category -> nat)) (ppp : list npfloat)
  : list (category -> npfloat) :=
  map (fun x => calc_exp_pts_w_orb_year rnd (fst (fst x)) (snd (fst x)) (snd x))
      (combine (combine shots rebs) ppp).

(** * Properties *)

(** ** Comparisons and substring search *)

Lemma Qlt_bool_iff (x y : Q) : Qlt_bool x y = true <-> (x < y)%Q.
Proof. unfold Qlt_bool, Qlt. apply Z.ltb_lt. Qed.

Lemma Qle_bool_false (x y : Q) : Qle_bool x y = false <-> (y < x)%Q.
Proof.
  rewrite <- not_true_iff_false, Qle_bool_iff. split.
  - apply Qnot_le_lt.
  - apply Qlt_not_le.
Qed.

Lemma Qlt_bool_false (x y : Q) : Qlt_bool x y = false <-> (y <= x)%Q.
Proof.
  rewrite <- not_true_iff_false, Qlt_bool_iff. split.
  - apply Qnot_lt_le.
  - apply Qle_not_lt.
Qed.

Lemma Qlt_bool_negb (x y : Q) : Qlt_bool y x = negb (Qle_bool x y).
Proof.
  destruct (Qle_bool x y) eqn:E; simpl.
  - apply Qlt_bool_false, Qle_bool_iff, E.
  - apply Qlt_bool_iff, Qle_bool_false, E.
Qed.

Lemma Qle_bool_mono (d a b : Q) :
  (a <= b)%Q -> Qle_bool d a = true -> Qle_bool d b = true.
Proof.
  rewrite !Qle_bool_iff. intros Hab Hd. apply Qle_trans with a; assumption.
Qed.

Ltac band_facts :=
  repeat match goal with
         | H : Qle_bool _ _ = true |- _ => apply Qle_bool_iff in H
         | H : Qle_bool _ _ = false |- _ => apply Qle_bool_false in H
         end.

Lemma band_0_5 d : band_of d = B0_5 <-> (d <= 5)%Q.
Proof.
  unfold band_of.
  destruct (Qle_bool d 5) eqn:E5; [band_facts; tauto|].
  destruct (Qle_bool d 10), (Qle_bool d 15), (Qle_bool d 25), (Qle_bool d 30);
    band_facts; split; try discriminate; intro; lra.
Qed.

Lemma band_5_10 d : band_of d = B5_10 <-> (5 < d <= 10)%Q.
Proof.
  unfold band_of.
  destruct (Qle_bool d 5) eqn:E5, (Qle_bool d 10) eqn:E10,
    (Qle_bool d 15) eqn:E15, (Qle_bool d 25) eqn:E25, (Qle_bool d 30) eqn:E30;
    band_facts; split; try discriminate; try tauto; intro; lra.
Qed.

Lemma band_10_15 d : band_of d = B10_15 <-> (10 < d <= 15)%Q.
Proof.
  unfold band_of.
  destruct (Qle_bool d 5) eqn:E5, (Qle_bool d 10) eqn:E10,
    (Qle_bool d 15) eqn:E15, (Qle_bool d 25) eqn:E25, (Qle_bool d 30) eqn:E30;
    band_facts; split; try discriminate; try tauto; intro; lra.
Qed.

Lemma band_15_25 d : band_of d = B15_25 <-> (15 < d <= 25)%Q.
Proof.
  unfold band_of.
  destruct (Qle_bool d 5) eqn:E5, (Qle_bool d 10) eqn:E10,
    (Qle_bool d 15) eqn:E15, (Qle_bool d 25) eqn:E25, (Qle_bool d 30) eqn:E30;
    band_facts; split; try discriminate; try tauto; intro; lra.
Qed.

Lemma band_25_30 d : band_of d = B25_30 <-> (25 < d <= 30)%Q.
Proof.
  unfold band_of.
  destruct (Qle_bool d 5) eqn:E5, (Qle_bool d 10) eqn:E10,
    (Qle_bool d 15) eqn:E15, (Qle_bool d 25) eqn:E25, (Qle_bool d 30) eqn:E30;
    band_facts; split; try discriminate; try tauto; intro; lra.
Qed.

Lemma band_30_up d : band_of d = B30_up <-> (30 < d)%Q.
Proof.
  unfold band_of.
  destruct (Qle_bool d 5) eqn:E5, (Qle_bool d 10) eqn:E10,
    (Qle_bool d 15) eqn:E15, (Qle_bool d 25) eqn:E25, (Qle_bool d 30) eqn:E30;
    band_facts; split; try discriminate; try tauto; intro; lra.
Qed.

Lemma le_by_band (d : Q) :
  Qle_bool d 5 = le_in_band (band_of d) 5
  /\ Qle_bool d 10 = le_in_band (band_of d) 10
  /\ Qle_bool d 15 = le_in_band (band_of d) 15
  /\ Qle_bool d 25 = le_in_band (band_of d) 25
  /\ Qle_bool d 30 = le_in_band (band_of d) 30.
Proof.
  unfold band_of.
  destruct (Qle_bool d 5) eqn:E5, (Qle_bool d 10) eqn:E10,
    (Qle_bool d 15) eqn:E15, (Qle_bool d 25) eqn:E25, (Qle_bool d 30) eqn:E30;
    simpl; repeat split; try reflexivity; band_facts; exfalso; lra.
Qed.

Lemma re_match_here_literal (pat s : string) :
  re_literal pat = true -> re_match_here pat s = String.prefix pat s.
Proof.
  revert s. induction pat as [|p pat IH]; intros s Hlit.
  - destruct s; reflexivity.
  - simpl in Hlit. apply andb_prop in Hlit as [Hp Hpat].
    destruct s as [|a s]; simpl; [reflexivity|].
    unfold re_char.
    assert (Hdot : Ascii.eqb p "."%char = false).
    { destruct (Ascii.eqb p "."%char) eqn:E; [|reflexivity].
      apply Ascii.eqb_eq in E. subst p. discriminate Hp. }
    rewrite Hdot, (IH s Hpat).
    destruct (ascii_dec p a) as [->|Hne].
    + rewrite Ascii.eqb_refl. reflexivity.
    + apply Ascii.eqb_neq in Hne. rewrite Hne. reflexivity.
Qed.

(** On a pattern without metacharacters the regular-expression search is the
    substring test. *)
Lemma re_search_literal (pat s : string) :
  re_literal pat = true -> re_search pat s = contains pat s.
Proof.
  intro Hlit. induction s as [|a s IH]; simpl.
  - rewrite (re_match_here_literal pat "" Hlit). reflexivity.
  - rewrite (re_match_here_literal pat (String a s) Hlit), IH. reflexivity.
Qed.

Lemma search_2_pt (tag : string) : re_search "2-pt" tag = contains "2-pt" tag.
Proof. apply re_search_literal. reflexivity. Qed.

Lemma search_3_pt (tag : string) : re_search "3-pt" tag = contains "3-pt" tag.
Proof. apply re_search_literal. reflexivity. Qed.

(** ** The selections of calc_shots, row by row *)

Lemma attempts_filter (year : list row) (c : category) :
  attempts (calc_shots_year year c) = List.length (filter (selects c) year).
Proof. destruct c; reflexivity. Qed.

Lemma makes_filter (year : list row) (c : category) :
  makes (calc_shots_year year c) = List.length (made (filter (selects c) year)).
Proof. destruct c; reflexivity. Qed.

Lemma calc_shots_year_filter (year : list row) (c : category) :
  calc_shots_year year c = count_shots (filter (selects c) year).
Proof. destruct c; reflexivity. Qed.

Lemma attempts_cons (r : row) (year : list row) (c : category) :
  attempts (calc_shots_year (r :: year) c)
  = b2n (selects c r) + attempts (calc_shots_year year c).
Proof.
  rewrite !attempts_filter. simpl. destruct (selects c r); reflexivity.
Qed.

Lemma attempts_single (r : row) (c : category) :
  attempts (calc_shots_year [r] c) = b2n (selects c r).
Proof. rewrite attempts_cons, attempts_filter. simpl. lia. Qed.

Lemma selects_no_distance (r : row) (c : category) :
  ShotDist r = None -> selects c r = false.
Proof.
  intro H. destruct c; simpl; rewrite H; simpl;
    rewrite ?andb_false_r; reflexivity.
Qed.

(** Reduces the seven selection tests of a shot with a tag and a distance to
    the two tag tests and the band of the distance. *)
Ltac by_band d Hb :=
  unfold selects, str_contains, dist_le, dist_gt;
  rewrite ?Qlt_bool_negb;
  destruct (le_by_band d) as (-> & -> & -> & -> & ->);
  destruct (band_of d) eqn:Hb; simpl.

Ltac band_props :=
  repeat match goal with
         | H : band_of _ = B0_5 |- _ => apply band_0_5 in H
         | H : band_of _ = B5_10 |- _ => apply band_5_10 in H
         | H : band_of _ = B10_15 |- _ => apply band_10_15 in H
         | H : band_of _ = B15_25 |- _ => apply band_15_25 in H
         | H : band_of _ = B25_30 |- _ => apply band_25_30 in H
         | H : band_of _ = B30_up |- _ => apply band_30_up in H
         end.

Lemma times_counted_sum (r : row) :
  times_counted r = list_sum (map (fun c => b2n (selects c r)) keys).
Proof.
  unfold times_counted. f_equal. apply map_ext. intro c.
  apply attempts_single.
Qed.

Lemma times_counted_regular (r : row) (tag : string) (d : Q) :
  ShotType r = Some tag -> ShotDist r = Some d -> regular_shot tag d ->
  times_counted r = 1.
Proof.
  intros Hty Hd Hreg. rewrite times_counted_sum.
  unfold keys. cbn [map list_sum fold_right]. unfold selects, str_contains.
  rewrite Hty, Hd, search_2_pt, search_3_pt.
  by_band d Hb; band_props;
    destruct Hreg as [(-> & -> & Hle)|(-> & -> & Hlt)];
    simpl; try reflexivity; exfalso; lra.
Qed.

Lemma times_counted_no_distance (r : row) :
  ShotDist r = None -> times_counted r = 0.
Proof.
  intro H. rewrite times_counted_sum. unfold keys. cbn [map list_sum fold_right].
  rewrite !(selects_no_distance r _ H). reflexivity.
Qed.

Lemma total_attempts_cons (r : row) (year : list row) :
  total_attempts (r :: year) = times_counted r + total_attempts year.
Proof.
  rewrite times_counted_sum. unfold total_attempts.
  rewrite (map_ext _ _ (attempts_cons r year)).
  unfold keys. cbn [map list_sum fold_right]. lia.
Qed.

(** ** Shot Binner: partition *)

Lemma counted_once_iff_sum (r : row) : counted_once r <-> times_counted r = 1.
Proof.
  rewrite times_counted_sum. unfold counted_once, keys.
  cbn [map list_sum fold_right]. split.
  - intros [k Hk].
    pose proof (Hk K2_0_5) as H1. pose proof (Hk K2_6_10) as H2.
    pose proof (Hk K2_11_15) as H3. pose proof (Hk K2_over_15) as H4.
    pose proof (Hk K3_under_26) as H5. pose proof (Hk K3_26_30) as H6.
    pose proof (Hk K3_over_30) as H7.
    rewrite attempts_single in H1, H2, H3, H4, H5, H6, H7.
    rewrite H1, H2, H3, H4, H5, H6, H7. destruct k; reflexivity.
  - intro Hsum.
    destruct (selects K2_0_5 r) eqn:E1, (selects K2_6_10 r) eqn:E2,
      (selects K2_11_15 r) eqn:E3, (selects K2_over_15 r) eqn:E4,
      (selects K3_under_26 r) eqn:E5, (selects K3_26_30 r) eqn:E6,
      (selects K3_over_30 r) eqn:E7; simpl in Hsum; try discriminate Hsum.
    + exists K2_0_5. intro c. rewrite attempts_single.
      destruct c; rewrite ?E1, ?E2, ?E3, ?E4, ?E5, ?E6, ?E7; reflexivity.
    + exists K2_6_10. intro c. rewrite attempts_single.
      destruct c; rewrite ?E1, ?E2, ?E3, ?E4, ?E5, ?E6, ?E7; reflexivity.
    + exists K2_11_15. intro c. rewrite attempts_single.
      destruct c; rewrite ?E1, ?E2, ?E3, ?E4, ?E5, ?E6, ?E7; reflexivity.
    + exists K2_over_15. intro c. rewrite attempts_single.
      destruct c; rewrite ?E1, ?E2, ?E3, ?E4, ?E5, ?E6, ?E7; reflexivity.
    + exists K3_under_26. intro c. rewrite attempts_single.
      destruct c; rewrite ?E1, ?E2, ?E3, ?E4, ?E5, ?E6, ?E7; reflexivity.
    + exists K3_26_30. intro c. rewrite attempts_single.
      destruct c; rewrite ?E1, ?E2, ?E3, ?E4, ?E5, ?E6, ?E7; reflexivity.
    + exists K3_over_30. intro c. rewrite attempts_single.
      destruct c; rewrite ?E1, ?E2, ?E3, ?E4, ?E5, ?E6, ?E7; reflexivity.
Qed.

(** C1, as stated, fails: a two-point shot from 28 ft is counted under
    "2-pt >15 ft" and under "3-pt 26-30 ft". *)
Lemma long_two_counted_twice :
  contains "2-pt" "2-pt jump shot" = true
  /\ (0 <= 28)%Q
  /\ attempts (calc_shots_year
                 [shot_event "A. Player" "2-pt jump shot" "miss" 28 100]
                 K2_over_15) = 1
  /\ attempts (calc_shots_year
                 [shot_event "A. Player" "2-pt jump shot" "miss" 28 100]
                 K3_26_30) = 1
  /\ ~ counted_once (shot_event "A. Player" "2-pt jump shot" "miss" 28 100).
Proof.
  repeat split; try reflexivity; try discriminate.
  intro H. apply counted_once_iff_sum in H. vm_compute in H. discriminate H.
Qed.

Lemma times_counted_cases (r : row) (tag : string) (d : Q) :
  ShotType r = Some tag -> ShotDist r = Some d ->
  contains "2-pt" tag || contains "3-pt" tag = true ->
  1 <= times_counted r <= 2
  /\ (times_counted r = 1 <-> regular_shot tag d).
Proof.
  intros Hty Hd Htag.
  rewrite times_counted_sum.
  unfold keys, regular_shot. cbn [map list_sum fold_right].
  unfold selects, str_contains.
  rewrite Hty, Hd, search_2_pt, search_3_pt.
  destruct (contains "2-pt" tag), (contains "3-pt" tag);
    try discriminate Htag;
    by_band d Hb; band_props;
    (split; [lia|]); split; intro H; try discriminate H; try reflexivity;
    try (exfalso; destruct H as [(? & ? & ?)|(? & ? & ?)];
         first [discriminate | lra]);
    try (left; repeat split; lra); try (right; repeat split; lra).
Qed.

(** C1, amended: a shot whose tag contains "2-pt" or "3-pt" and whose
    distance is not negative is counted in the attempts of one or two of the
    seven categories, and of exactly one if and only if it is a two-pointer
    from at most 25 ft or a three-pointer from beyond 15 ft. *)
Theorem shot_counted_once_iff (r : row) (tag : string) (d : Q) :
  ShotType r = Some tag -> ShotDist r = Some d ->
  contains "2-pt" tag || contains "3-pt" tag = true ->
  (0 <= d)%Q ->
  1 <= times_counted r <= 2
  /\ (counted_once r <-> regular_shot tag d).
Proof.
  intros Hty Hd Htag _. rewrite counted_once_iff_sum.
  exact (times_counted_cases r tag d Hty Hd Htag).
Qed.

Lemma shot_counted_once_iff_witness :
  1 <= times_counted (shot_event "A. Player" "3-pt jump shot" "make" 24 30) <= 2
  /\ (counted_once (shot_event "A. Player" "3-pt jump shot" "make" 24 30)
      <-> regular_shot "3-pt jump shot" 24).
Proof.
  apply (shot_counted_once_iff
           (shot_event "A. Player" "3-pt jump shot" "make" 24 30)
           "3-pt jump shot" 24); try reflexivity.
  discriminate.
Defined.

(** C10: a row whose distance is missing is counted under no key, whatever
    its other cells hold: taking it out of the table leaves the attempts and
    the makes of every category as they were. *)
Theorem missing_distance_not_counted
  (year1 year2 : list row) (r : row) (c : category) :
  ShotDist r = None ->
  calc_shots_year (year1 ++ r :: year2) c = calc_shots_year (year1 ++ year2) c
  /\ attempts (calc_shots_year [r] c) = 0
  /\ makes (calc_shots_year [r] c) = 0.
Proof.
  intro H. rewrite !calc_shots_year_filter, !filter_app. simpl.
  rewrite (selects_no_distance r c H). auto.
Qed.

Lemma missing_distance_not_counted_witness :
  calc_shots_year
    ([shot_event "A. Player" "2-pt layup" "make" 2 300]
       ++ shot_without_distance "B. Player" "2-pt jump shot" "make" 250
       :: [rebound_event "C. Player" "defensive" 240]) K2_over_15
  = calc_shots_year
      ([shot_event "A. Player" "2-pt layup" "make" 2 300]
         ++ [rebound_event "C. Player" "defensive" 240]) K2_over_15
  /\ attempts (calc_shots_year
                 [shot_without_distance "B. Player" "2-pt jump shot" "make" 250]
                 K2_over_15) = 0
  /\ makes (calc_shots_year
              [shot_without_distance "B. Player" "2-pt jump shot" "make" 250]
              K2_over_15) = 0.
Proof.
  apply missing_distance_not_counted. reflexivity.
Defined.

(** C6, as stated, fails: a made shot whose distance cell is empty has a
    populated outcome and is counted under no key. *)
Lemma attempts_miss_shot_without_distance :
  total_attempts [shot_without_distance "A. Player" "2-pt layup" "make" 40] = 0
  /\ List.length
       (with_outcome [shot_without_distance "A. Player" "2-pt layup" "make" 40])
     = 1.
Proof. split; reflexivity. Qed.

(** C6, amended: in a cleaned table where outcome and distance are present
    on the same rows and every shot is a two-pointer from at most 25 ft or a
    three-pointer from beyond 15 ft, the attempts of the seven categories add
    up to the number of rows with a populated outcome. *)
Theorem attempts_sum_to_shots (year : list row) :
  Forall regular_row year ->
  total_attempts year = List.length (with_outcome year).
Proof.
  induction 1 as [|r year Hr _ IH]; [reflexivity|].
  rewrite total_attempts_cons, IH. unfold with_outcome. simpl.
  unfold regular_row in Hr.
  destruct (ShotOutcome r) as [o|] eqn:Ho, (ShotDist r) as [d|] eqn:Hd;
    try contradiction; simpl.
  - destruct Hr as (tag & Hty & Hreg).
    rewrite (times_counted_regular r tag d Hty Hd Hreg). reflexivity.
  - rewrite (times_counted_no_distance r Hd). reflexivity.
Qed.

Lemma attempts_sum_to_shots_witness :
  total_attempts
    [shot_event "A. Player" "2-pt layup" "make" 2 300;
     rebound_event "B. Player" "defensive" 280;
     shot_event "C. Player" "3-pt jump shot" "miss" 26 200]
  = List.length
      (with_outcome
         [shot_event "A. Player" "2-pt layup" "make" 2 300;
          rebound_event "B. Player" "defensive" 280;
          shot_event "C. Player" "3-pt jump shot" "miss" 26 200]).
Proof.
  apply attempts_sum_to_shots.
  repeat constructor.
  - exists "2-pt layup". split; [reflexivity|].
    left. repeat split. discriminate.
  - exists "3-pt jump shot". split; [reflexivity|].
    right. repeat split.
Defined.

(** ** Rebound Cross-Referencer *)

Lemma for_range_raises {S : Type} (body : nat -> S -> outcome S)
  (l : list nat) (e : exn) :
  fold_left (fun acc i => s <- acc ;; body i s) l (Raises e) = Raises e.
Proof. induction l as [|i l IH]; simpl; [reflexivity | exact IH]. Qed.

Lemma iloc_app_here (pre suf : list row) :
  iloc (pre ++ suf) (List.length pre)
  = match suf with r :: _ => Returns r | [] => Raises IndexError end.
Proof.
  unfold iloc. rewrite nth_error_app2 by lia. rewrite Nat.sub_diag.
  destruct suf; reflexivity.
Qed.

Lemma rebs_step_scan (pre : list row) (r : row) (suf : list row)
  (rebs : category -> nat) :
  rebs_step (pre ++ r :: suf) (List.length pre) rebs
  = if cell_eq (ShotOutcome r) "miss" then
      match suf with
      | [] => Raises IndexError
      | next :: _ =>
          k <- missed_shot_key (ShotType r) (ShotDist r) ;;
          Returns (credit rebs k
                     (if cell_eq (ReboundType next) "offensive"
                         && cell_ne0 (SecLeft next) then 1 else 0))
      end
    else Returns rebs.
Proof.
  unfold rebs_step. rewrite iloc_app_here. simpl.
  destruct (cell_eq (ShotOutcome r) "miss"); [|reflexivity].
  replace (pre ++ r :: suf) with ((pre ++ [r]) ++ suf)
    by (rewrite <- app_assoc; reflexivity).
  replace (List.length pre + 1) with (List.length (pre ++ [r]))
    by (rewrite length_app; reflexivity).
  rewrite iloc_app_here. destruct suf; reflexivity.
Qed.

Lemma for_range_scan (suf pre : list row) (rebs : category -> nat) :
  fold_left (fun acc i => s <- acc ;; rebs_step (pre ++ suf) i s)
            (seq (List.length pre) (List.length suf)) (Returns rebs)
  = scan suf rebs.
Proof.
  revert pre rebs. induction suf as [|r suf IH]; intros pre rebs.
  - reflexivity.
  - cbn [List.length seq fold_left scan]. unfold bind at 2.
    rewrite rebs_step_scan.
    assert (Hnext : forall rebs',
               fold_left (fun acc i => s <- acc ;; rebs_step (pre ++ r :: suf) i s)
                 (seq (S (List.length pre)) (List.length suf)) (Returns rebs')
               = scan suf rebs').
    { intro rebs'. specialize (IH (pre ++ [r]) rebs').
      rewrite <- app_assoc, length_app, Nat.add_1_r in IH. exact IH. }
    destruct (cell_eq (ShotOutcome r) "miss"); [|apply Hnext].
    destruct suf as [|next suf']; [apply for_range_raises|].
    destruct (missed_shot_key (ShotType r) (ShotDist r)) as [k|e]; simpl bind.
    + apply Hnext.
    + apply for_range_raises.
Qed.

(** The indexed loop and the scan of the rows agree. *)
Lemma calc_rebs_year_scan (year : list row) :
  calc_rebs_year year = scan year (fun _ => 0).
Proof. exact (for_range_scan year [] (fun _ => 0)). Qed.

Lemma category_eqb_eq (a b : category) : category_eqb a b = true <-> a = b.
Proof. destruct a, b; simpl; split; intro H; congruence. Qed.

Lemma category_eqb_refl (a : category) : category_eqb a a = true.
Proof. destruct a; reflexivity. Qed.

(** With a tag at hand the key chain never raises. *)
Lemma missed_shot_key_tagged (tag : string) (dist : option Q) :
  exists k, missed_shot_key (Some tag) dist = Returns k.
Proof.
  unfold missed_shot_key.
  destruct (dist_le dist 5); [eauto|].
  destruct (dist_le dist 10); [eauto|].
  destruct (dist_le dist 15); [eauto|].
  destruct (contains "2-pt" tag); [eauto|].
  destruct (dist_le dist 25); [eauto|].
  destruct (dist_le dist 30); eauto.
Qed.

(** The key credited by the scan is one under which [calc_shots] counts the
    shot. *)
Lemma missed_shot_key_selected (r : row) (tag : string) (d : Q) (k : category) :
  ShotType r = Some tag -> ShotDist r = Some d ->
  contains "2-pt" tag || contains "3-pt" tag = true ->
  missed_shot_key (ShotType r) (ShotDist r) = Returns k ->
  selects k r = true.
Proof.
  intros Hty Hd Htag. unfold missed_shot_key.
  unfold selects, str_contains, dist_le, dist_gt.
  rewrite Hty, Hd, search_2_pt, search_3_pt, ?Qlt_bool_negb.
  destruct (le_by_band d) as (-> & -> & -> & -> & ->).
  destruct (band_of d); simpl;
    destruct (contains "2-pt" tag), (contains "3-pt" tag);
    try discriminate Htag; simpl;
    intro Hk; injection Hk as <-; reflexivity.
Qed.

Lemma scan_miss_then_rebound (r : row) (who : string) (sec : Z) (k : category) :
  ShotOutcome r = Some "miss" -> sec <> 0%Z ->
  missed_shot_key (ShotType r) (ShotDist r) = Returns k ->
  calc_rebs_year [r; rebound_event who "offensive" sec]
  = Returns (credit (fun _ => 0) k 1).
Proof.
  intros Hmiss Hsec Hk. rewrite calc_rebs_year_scan. simpl.
  rewrite Hmiss, Hk. simpl.
  apply Z.eqb_neq in Hsec. rewrite Hsec. reflexivity.
Qed.

(** C5, as stated, fails: a missed shot tagged "3-pt" from 14 ft followed by
    an offensive rebound is credited under "2-pt 11-15 ft" only, while
    [calc_shots] counts it under "3-pt <26 ft" as well. *)
Lemma short_three_keys_differ :
  exists rebs,
    calc_rebs_year [shot_event "A. Player" "3-pt jump shot" "miss" 14 100;
                    rebound_event "B. Player" "offensive" 97] = Returns rebs
    /\ rebs K2_11_15 = 1
    /\ rebs K3_under_26 = 0
    /\ attempts (calc_shots_year
                   [shot_event "A. Player" "3-pt jump shot" "miss" 14 100]
                   K3_under_26) = 1.
Proof.
  eexists. split.
  - apply (scan_miss_then_rebound _ _ _ K2_11_15); [reflexivity | discriminate | reflexivity].
  - repeat split.
Qed.

(** C5, amended: the category that the rebound scan credits for a missed
    shot whose tag contains "2-pt" or "3-pt" is always a category under which
    the Shot Binner counts that shot; it is the only such category exactly
    for two-pointers from at most 25 ft and three-pointers from beyond
    15 ft. *)
Theorem rebound_key_among_binner_keys
  (r : row) (tag : string) (d : Q) (who : string) (sec : Z) :
  ShotType r = Some tag -> ShotDist r = Some d ->
  ShotOutcome r = Some "miss" ->
  contains "2-pt" tag || contains "3-pt" tag = true ->
  sec <> 0%Z ->
  exists k,
    calc_rebs_year [r; rebound_event who "offensive" sec]
    = Returns (credit (fun _ => 0) k 1)
    /\ attempts (calc_shots_year [r] k) = 1
    /\ ((forall c, attempts (calc_shots_year [r] c) = b2n (category_eqb c k))
        <-> regular_shot tag d).
Proof.
  intros Hty Hd Hmiss Htag Hsec.
  destruct (missed_shot_key_tagged tag (ShotDist r)) as [k Hk].
  rewrite <- Hty in Hk. exists k.
  assert (Hsel : attempts (calc_shots_year [r] k) = 1).
  { rewrite attempts_single,
      (missed_shot_key_selected r tag d k Hty Hd Htag Hk). reflexivity. }
  split; [exact (scan_miss_then_rebound r who sec k Hmiss Hsec Hk)|].
  split; [exact Hsel|].
  destruct (times_counted_cases r tag d Hty Hd Htag) as [_ Hiff].
  rewrite <- Hiff, <- counted_once_iff_sum. split.
  - intro H. exists k. exact H.
  - intros [k' Hk'] c. rewrite Hk'.
    rewrite Hk' in Hsel. destruct (category_eqb k k') eqn:E; [|discriminate Hsel].
    apply category_eqb_eq in E. subst k'. reflexivity.
Qed.

Lemma rebound_key_among_binner_keys_witness :
  exists k,
    calc_rebs_year [shot_event "A. Player" "3-pt jump shot" "miss" 28 45;
                    rebound_event "B. Player" "offensive" 43]
    = Returns (credit (fun _ => 0) k 1)
    /\ attempts (calc_shots_year
                   [shot_event "A. Player" "3-pt jump shot" "miss" 28 45] k) = 1
    /\ ((forall c,
            attempts (calc_shots_year
                        [shot_event "A. Player" "3-pt jump shot" "miss" 28 45] c)
            = b2n (category_eqb c k))
        <-> regular_shot "3-pt jump shot" 28).
Proof.
  apply (rebound_key_among_binner_keys
           (shot_event "A. Player" "3-pt jump shot" "miss" 28 45)
           "3-pt jump shot" 28 "B. Player" 43);
    try reflexivity.
  discriminate.
Defined.

Lemma scan_last_miss (year : list row) (r : row) (rebs : category -> nat) :
  ShotOutcome r = Some "miss" ->
  exists e, scan (year ++ [r]) rebs = Raises e.
Proof.
  intro Hmiss. revert rebs.
  induction year as [|a year IH]; intro rebs; simpl.
  - rewrite Hmiss. simpl. eauto.
  - destruct (cell_eq (ShotOutcome a) "miss"); [|apply IH].
    remember (year ++ [r]) as l eqn:El. clear El.
    destruct l as [|next rest]; [eauto|].
    destruct (missed_shot_key (ShotType a) (ShotDist a)) as [k|e];
      unfold bind; [apply IH | eauto].
Qed.

(** C2, on the code: when the last row of the table is a missed shot,
    [calc_rebs] returns no tally, it raises.  The lookahead [iloc[i + 1]]
    is not guarded; the exception is IndexError unless an earlier miss with
    an empty type cell has already raised TypeError. *)
Theorem calc_rebs_raises_on_last_miss (year : list row) (r : row) :
  ShotOutcome r = Some "miss" ->
  (exists e, calc_rebs_year (year ++ [r]) = Raises e)
  /\ calc_rebs_year [r] = Raises IndexError.
Proof.
  intro Hmiss. rewrite !calc_rebs_year_scan. split.
  - apply scan_last_miss, Hmiss.
  - simpl. rewrite Hmiss. reflexivity.
Qed.

Lemma calc_rebs_raises_on_last_miss_witness :
  (exists e,
      calc_rebs_year
        ([shot_event "A. Player" "2-pt layup" "make" 1 30]
           ++ [shot_event "B. Player" "3-pt jump shot" "miss" 27 2])
      = Raises e)
  /\ calc_rebs_year [shot_event "B. Player" "3-pt jump shot" "miss" 27 2]
     = Raises IndexError.
Proof.
  apply calc_rebs_raises_on_last_miss. reflexivity.
Defined.

(** ** Tallies: makes, misses and recoveries *)

Lemma makes_le_attempts (year : list row) (c : category) :
  makes (calc_shots_year year c) <= attempts (calc_shots_year year c).
Proof.
  rewrite makes_filter, attempts_filter. unfold made. apply filter_length_le.
Qed.

Lemma make_is_not_miss (o : option string) :
  cell_eq o "make" = true -> cell_eq o "miss" = false.
Proof.
  destruct o as [x|]; simpl; [|reflexivity].
  intro H. apply String.eqb_eq in H. subst x. reflexivity.
Qed.

(** Missed shots selected for a category are attempts that are not makes. *)
Lemma misses_le_attempts_minus_makes (year : list row) (c : category) :
  List.length
    (filter (fun r => cell_eq (ShotOutcome r) "miss" && selects c r) year)
  + makes (calc_shots_year year c)
  <= attempts (calc_shots_year year c).
Proof.
  rewrite makes_filter, attempts_filter. unfold made.
  induction year as [|r year IH]; simpl; [lia|].
  destruct (selects c r); rewrite ?andb_false_r, ?andb_true_r; simpl; [|exact IH].
  destruct (cell_eq (ShotOutcome r) "make") eqn:Emake.
  - rewrite (make_is_not_miss _ Emake). simpl. lia.
  - destruct (cell_eq (ShotOutcome r) "miss"); simpl; lia.
Qed.

Lemma credit_bound (rebs : category -> nat) (k c : category) (off_reb : nat) :
  credit rebs k off_reb c = rebs c + (if category_eqb c k then off_reb else 0).
Proof. unfold credit. destruct (category_eqb c k); lia. Qed.

Lemma filter_length_cons {A : Type} (f : A -> bool) (a : A) (l : list A) :
  List.length (filter f (a :: l)) = b2n (f a) + List.length (filter f l).
Proof. simpl. destruct (f a); reflexivity. Qed.

Lemma scan_bound (rows : list row) :
  Forall tagged_miss rows ->
  forall rebs res c,
    scan rows rebs = Returns res ->
    res c <= rebs c
             + List.length
                 (filter (fun r => cell_eq (ShotOutcome r) "miss" && selects c r)
                         rows).
Proof.
  induction 1 as [|r rows Hr _ IH]; intros rebs res c Hscan; simpl in Hscan.
  - injection Hscan as <-. simpl. lia.
  - pose proof (fun rebs' res' => IH rebs' res' c) as IHc. clear IH.
    rewrite filter_length_cons.
    remember (List.length
                (filter (fun r => cell_eq (ShotOutcome r) "miss" && selects c r)
                        rows)) as n eqn:En.
    clear En.
    destruct (cell_eq (ShotOutcome r) "miss") eqn:Emiss;
      [|simpl; exact (IHc _ _ Hscan)].
    destruct rows as [|next rest]; [discriminate Hscan|].
    assert (Hout : ShotOutcome r = Some "miss").
    { destruct (ShotOutcome r) as [x|]; [|discriminate Emiss].
      simpl in Emiss. apply String.eqb_eq in Emiss. congruence. }
    destruct (Hr Hout) as (tag & d & Hty & Hd & Htag).
    destruct (missed_shot_key (ShotType r) (ShotDist r)) as [k|e] eqn:Hk;
      unfold bind in Hscan; [|discriminate Hscan].
    pose proof (missed_shot_key_selected r tag d k Hty Hd Htag Hk) as Hsel.
    apply IHc in Hscan. rewrite credit_bound in Hscan.
    destruct (category_eqb c k) eqn:E.
    + apply category_eqb_eq in E. subst c. rewrite Hsel. simpl.
      destruct (cell_eq (ReboundType next) "offensive" && cell_ne0 (SecLeft next));
        lia.
    + destruct (selects c r); simpl; lia.
Qed.

(** C7, as stated, fails: a missed shot with an empty distance cell followed
    by an offensive rebound is credited under "2-pt >15 ft", a category in
    which [calc_shots] counts no attempt. *)
Lemma recovery_without_attempt :
  exists rebs,
    calc_rebs_year
      [shot_without_distance "A. Player" "2-pt jump shot" "miss" 100;
       rebound_event "B. Player" "offensive" 97] = Returns rebs
    /\ rebs K2_over_15 = 1
    /\ attempts (calc_shots_year
                   [shot_without_distance "A. Player" "2-pt jump shot" "miss" 100;
                    rebound_event "B. Player" "offensive" 97] K2_over_15) = 0
    /\ makes (calc_shots_year
                [shot_without_distance "A. Player" "2-pt jump shot" "miss" 100;
                 rebound_event "B. Player" "offensive" 97] K2_over_15) = 0.
Proof.
  eexists. split.
  - apply (scan_miss_then_rebound _ _ _ K2_over_15);
      [reflexivity | discriminate | reflexivity].
  - repeat split.
Qed.

(** C7, amended: in a cleaned table whose missed shots all carry a distance
    and a tag containing "2-pt" or "3-pt", and on which the rebound scan
    returns, every category has makes <= attempts and recoveries <=
    attempts - makes. *)
Theorem tallies_bounded (year : list row) (rebs : category -> nat)
  (c : category) :
  Forall tagged_miss year ->
  calc_rebs_year year = Returns rebs ->
  makes (calc_shots_year year c) <= attempts (calc_shots_year year c)
  /\ rebs c <= attempts (calc_shots_year year c) - makes (calc_shots_year year c).
Proof.
  intros Htag Hret. split; [apply makes_le_attempts|].
  rewrite calc_rebs_year_scan in Hret.
  pose proof (scan_bound year Htag _ _ c Hret) as Hb.
  pose proof (misses_le_attempts_minus_makes year c) as Hm.
  simpl in Hb. lia.
Qed.

Lemma tallies_bounded_witness :
  makes (calc_shots_year
           [shot_event "A. Player" "3-pt jump shot" "miss" 28 45;
            rebound_event "B. Player" "offensive" 43;
            shot_event "B. Player" "2-pt layup" "make" 1 40] K3_26_30)
  <= attempts (calc_shots_year
                 [shot_event "A. Player" "3-pt jump shot" "miss" 28 45;
                  rebound_event "B. Player" "offensive" 43;
                  shot_event "B. Player" "2-pt layup" "make" 1 40] K3_26_30)
  /\ credit (fun _ => 0) K3_26_30 1 K3_26_30
     <= attempts (calc_shots_year
                    [shot_event "A. Player" "3-pt jump shot" "miss" 28 45;
                     rebound_event "B. Player" "offensive" 43;
                     shot_event "B. Player" "2-pt layup" "make" 1 40] K3_26_30)
        - makes (calc_shots_year
                   [shot_event "A. Player" "3-pt jump shot" "miss" 28 45;
                    rebound_event "B. Player" "offensive" 43;
                    shot_event "B. Player" "2-pt layup" "make" 1 40] K3_26_30).
Proof.
  apply tallies_bounded.
  - repeat constructor.
    + intros _. exists "3-pt jump shot", 28%Q. repeat split.
    + intro H. discriminate H.
    + intro H. discriminate H.
  - reflexivity.
Defined.

(** ** Possession Counter *)

Lemma Permutation_filter_length {A : Type} (f : A -> bool) (l l' : list A) :
  Permutation l l' -> List.length (filter f l) = List.length (filter f l').
Proof.
  induction 1 as [|a l l' _ IH|a b l|l l' l'' _ IH1 _ IH2]; simpl.
  - reflexivity.
  - destruct (f a); simpl; congruence.
  - destruct (f a), (f b); reflexivity.
  - congruence.
Qed.

Lemma possession_counts_permutation (t t' : list Raw.event) :
  Permutation t t' ->
  len (poss_data t) = len (poss_data t')
  /\ total_orbs t = total_orbs t'
  /\ total_poss t = total_poss t'.
Proof.
  intro Hp. unfold total_poss, total_orbs, len, poss_data, orbs_data, ft_orbs_data.
  rewrite (Permutation_filter_length _ t t' Hp).
  rewrite (Permutation_filter_length (fun e => orb e && not_end_of_q e) t t' Hp).
  rewrite (Permutation_filter_length
             (fun e => ft_miss e && (ft_1_of_2 e || ft_1_of_3 e || ft_2_of_3 e))
             t t' Hp).
  auto.
Qed.

(** The scenario with the rebound right after the first shot. *)
Lemma scenario_rebound_after_shot
  (shooter1 tag1 result1 : string) (d1 : Q) (sec1 : Z)
  (shooter2 tag2 result2 : string) (d2 : Q) (sec2 : Z)
  (lost : string) (sec3 : Z) (ft_result : string) (sec4 : Z)
  (rebounder : string) :
  Permutation
    [shot_play shooter1 tag1 result1 d1 sec1;
     rebound_play rebounder "offensive" 120;
     shot_play shooter2 tag2 result2 d2 sec2;
     turnover_play lost sec3;
     free_throw_play "1 of 2" ft_result sec4]
    (scenario_plays shooter1 tag1 result1 d1 sec1 shooter2 tag2 result2 d2 sec2
                    lost sec3 ft_result sec4 rebounder).
Proof.
  unfold scenario_plays. apply perm_skip.
  apply (Permutation_cons_append
           [shot_play shooter2 tag2 result2 d2 sec2; turnover_play lost sec3;
            free_throw_play "1 of 2" ft_result sec4]).
Qed.

(** C3, as stated, fails: with the free throw "1 of 2" missed, the missed
    free throw is taken off the rebound count although the only offensive
    rebound of the table follows a missed shot; four possessions come out. *)
Lemma scenario_with_missed_free_throw :
  Permutation
    [shot_play "A. Player" "2-pt jump shot" "miss" 12 130;
     rebound_play "B. Player" "offensive" 120;
     shot_play "B. Player" "2-pt layup" "make" 2 115;
     turnover_play "bad pass" 90;
     free_throw_play "1 of 2" "miss" 60]
    (scenario_plays "A. Player" "2-pt jump shot" "miss" 12 130
                    "B. Player" "2-pt layup" "make" 2 115
                    "bad pass" 90 "miss" 60 "B. Player")
  /\ len (poss_data
            [shot_play "A. Player" "2-pt jump shot" "miss" 12 130;
             rebound_play "B. Player" "offensive" 120;
             shot_play "B. Player" "2-pt layup" "make" 2 115;
             turnover_play "bad pass" 90;
             free_throw_play "1 of 2" "miss" 60]) = 4%Z
  /\ total_orbs
       [shot_play "A. Player" "2-pt jump shot" "miss" 12 130;
        rebound_play "B. Player" "offensive" 120;
        shot_play "B. Player" "2-pt layup" "make" 2 115;
        turnover_play "bad pass" 90;
        free_throw_play "1 of 2" "miss" 60] = 0%Z
  /\ total_poss
       [shot_play "A. Player" "2-pt jump shot" "miss" 12 130;
        rebound_play "B. Player" "offensive" 120;
        shot_play "B. Player" "2-pt layup" "make" 2 115;
        turnover_play "bad pass" 90;
        free_throw_play "1 of 2" "miss" 60] = 4%Z.
Proof.
  split; [apply scenario_rebound_after_shot | repeat split].
Qed.

(** C3, amended: on every table made of two shots, one turnover, one free
    throw labelled "1 of 2" that is not a miss and one offensive rebound with
    120 seconds left, in any order, the Possession Counter finds 4
    possession-ending events, takes off 1 offensive rebound and yields 3
    possessions. *)
Theorem scenario_possessions
  (shooter1 tag1 result1 : string) (d1 : Q) (sec1 : Z)
  (shooter2 tag2 result2 : string) (d2 : Q) (sec2 : Z)
  (lost : string) (sec3 : Z) (ft_result : string) (sec4 : Z)
  (rebounder : string) (data : list Raw.event) :
  Permutation data
    (scenario_plays shooter1 tag1 result1 d1 sec1 shooter2 tag2 result2 d2 sec2
                    lost sec3 ft_result sec4 rebounder) ->
  ft_result <> "miss" ->
  len (poss_data data) = 4%Z /\ total_orbs data = 1%Z /\ total_poss data = 3%Z.
Proof.
  intros Hp Hft.
  destruct (possession_counts_permutation _ _ Hp) as (-> & -> & ->).
  apply String.eqb_neq in Hft.
  unfold total_poss, total_orbs, len, poss_data, orbs_data, ft_orbs_data,
    scenario_plays.
  cbn. unfold ft_miss. cbn. rewrite Hft. cbn. auto.
Qed.

Lemma scenario_possessions_witness :
  len (poss_data
         [shot_play "A. Player" "2-pt jump shot" "miss" 12 130;
          rebound_play "B. Player" "offensive" 120;
          shot_play "B. Player" "2-pt layup" "make" 2 115;
          turnover_play "bad pass" 90;
          free_throw_play "1 of 2" "make" 60]) = 4%Z
  /\ total_orbs
       [shot_play "A. Player" "2-pt jump shot" "miss" 12 130;
        rebound_play "B. Player" "offensive" 120;
        shot_play "B. Player" "2-pt layup" "make" 2 115;
        turnover_play "bad pass" 90;
        free_throw_play "1 of 2" "make" 60] = 1%Z
  /\ total_poss
       [shot_play "A. Player" "2-pt jump shot" "miss" 12 130;
        rebound_play "B. Player" "offensive" 120;
        shot_play "B. Player" "2-pt layup" "make" 2 115;
        turnover_play "bad pass" 90;
        free_throw_play "1 of 2" "make" 60] = 3%Z.
Proof.
  apply (scenario_possessions
           "A. Player" "2-pt jump shot" "miss" 12 130
           "B. Player" "2-pt layup" "make" 2 115
           "bad pass" 90 "make" 60 "B. Player").
  - apply scenario_rebound_after_shot.
  - discriminate.
Defined.

(** C4, as stated, fails: a table with an end-of-game row and no possession
    has zero possessions, and [calc_ppp] raises nothing, it returns
    infinity. *)
Lemma zero_possessions_returns_infinity :
  total_poss [end_of_game 101 99] = 0%Z
  /\ forall rnd, calc_ppp rnd [end_of_game 101 99] = Returns PInf.
Proof. split; reflexivity. Qed.

(** C4, amended: on a table with at least one row [calc_ppp] never raises.
    With zero possessions it returns a value that is not finite, NaN for
    zero points and an infinity otherwise; with possessions it returns the
    points divided by the possessions, rounded to a float. *)
Theorem calc_ppp_division (rnd : Q -> Q) (data : list Raw.event) :
  data <> [] ->
  (total_poss data = 0%Z ->
   calc_ppp rnd data
   = Returns (if (pts data =? 0)%Z then NaN
              else if (0 <? pts data)%Z then PInf else NInf))
  /\ (total_poss data <> 0%Z ->
      calc_ppp rnd data
      = Returns (Fin (rnd (inject_Z (pts data) / inject_Z (total_poss data))%Q))).
Proof.
  intros _. unfold calc_ppp, np_true_divide. split.
  - intros ->. reflexivity.
  - intro H. apply Z.eqb_neq in H. rewrite H. reflexivity.
Qed.

Lemma calc_ppp_division_witness :
  (total_poss [shot_play "A. Player" "2-pt layup" "make" 2 115;
               end_of_game 2 0] = 0%Z ->
   calc_ppp (fun q => q) [shot_play "A. Player" "2-pt layup" "make" 2 115;
                          end_of_game 2 0]
   = Returns (if (pts [shot_play "A. Player" "2-pt layup" "make" 2 115;
                       end_of_game 2 0] =? 0)%Z then NaN
              else if (0 <? pts [shot_play "A. Player" "2-pt layup" "make" 2 115;
                                 end_of_game 2 0])%Z then PInf else NInf))
  /\ (total_poss [shot_play "A. Player" "2-pt layup" "make" 2 115;
                  end_of_game 2 0] <> 0%Z ->
      calc_ppp (fun q => q) [shot_play "A. Player" "2-pt layup" "make" 2 115;
                             end_of_game 2 0]
      = Returns
          (Fin (inject_Z (pts [shot_play "A. Player" "2-pt layup" "make" 2 115;
                               end_of_game 2 0])
                / inject_Z (total_poss
                              [shot_play "A. Player" "2-pt layup" "make" 2 115;
                               end_of_game 2 0]))%Q)).
Proof.
  apply (calc_ppp_division (fun q => q)). discriminate.
Defined.

(** ** Expected-Value Composer *)

Section Rounding.

Variable rnd : Q -> Q.

(** Rounding to the nearest float is monotone, keeps zero and keeps what is
    already a float. *)
Hypothesis rnd_monotone : forall x y : Q, (x <= y)%Q -> (rnd x <= rnd y)%Q.
Hypothesis rnd_zero : (rnd 0 == 0)%Q.
Hypothesis rnd_idempotent : forall x : Q, (rnd (rnd x) == rnd x)%Q.

Lemma rnd_nonneg (x : Q) : (0 <= x)%Q -> (0 <= rnd x)%Q.
Proof. intro H. rewrite <- rnd_zero. apply rnd_monotone, H. Qed.

Lemma ratio_nonneg (n a : nat) :
  a <> 0 -> (0 <= inject_Z (Z.of_nat n) / inject_Z (Z.of_nat a))%Q.
Proof.
  intro Ha. apply Qle_shift_div_l.
  - change 0%Q with (inject_Z 0). rewrite <- Zlt_Qlt. lia.
  - rewrite Qmult_0_l. change 0%Q with (inject_Z 0). rewrite <- Zle_Qle. lia.
Qed.

Lemma np_true_divide_finite (n a : nat) :
  a <> 0 ->
  np_true_divide rnd (Z.of_nat n) (Z.of_nat a)
  = Fin (rnd (inject_Z (Z.of_nat n) / inject_Z (Z.of_nat a))).
Proof.
  intro Ha. unfold np_true_divide.
  destruct (Z.eqb_spec (Z.of_nat a) 0) as [E|_]; [lia | reflexivity].
Qed.

(** One entry of the two dictionaries, for a key with attempts. *)
Lemma entry_with_orb_ge (value : Q) (m a o : nat) (ppp : Q) :
  a <> 0 -> (0 <= ppp)%Q ->
  exists e ew : Q,
    np_mul rnd (Fin value) (np_true_divide rnd (Z.of_nat m) (Z.of_nat a)) = Fin e
    /\ np_add rnd
         (np_mul rnd (Fin value) (np_true_divide rnd (Z.of_nat m) (Z.of_nat a)))
         (np_mul rnd (np_true_divide rnd (Z.of_nat o) (Z.of_nat a)) (Fin ppp))
       = Fin ew
    /\ (e <= ew)%Q.
Proof.
  intros Ha Hppp. rewrite !np_true_divide_finite by exact Ha. simpl.
  eexists. eexists. split; [reflexivity|]. split; [reflexivity|].
  set (e := rnd (value * rnd (inject_Z (Z.of_nat m) / inject_Z (Z.of_nat a)))).
  set (y := rnd (rnd (inject_Z (Z.of_nat o) / inject_Z (Z.of_nat a)) * ppp)).
  assert (Hy : (0 <= y)%Q).
  { apply rnd_nonneg, Qmult_le_0_compat; [|exact Hppp].
    apply rnd_nonneg, ratio_nonneg, Ha. }
  assert (He : (e == rnd e)%Q) by (symmetry; apply rnd_idempotent).
  rewrite He at 1. apply rnd_monotone. lra.
Qed.

(** C8: for a category with attempts and with recoveries, and a season PPP
    that is not negative, both expected-points entries are finite and the
    entry with rebound value is at least the entry without. *)
Theorem exp_pts_w_orb_ge_exp_pts
  (shots : category -> tally) (rebs : category -> nat) (ppp : Q)
  (c : category) :
  attempts (shots c) <> 0 -> rebs c <> 0 -> (0 <= ppp)%Q ->
  exists e ew : Q,
    calc_exp_pts_year rnd shots c = Fin e
    /\ calc_exp_pts_w_orb_year rnd shots rebs (Fin ppp) c = Fin ew
    /\ (e <= ew)%Q.
Proof.
  intros Ha _ Hppp.
  destruct c; exact (entry_with_orb_ge _ _ _ _ ppp Ha Hppp).
Qed.

End Rounding.

Lemma exp_pts_w_orb_ge_exp_pts_witness :
  exists e ew : Q,
    calc_exp_pts_year (fun q => q)
      (calc_shots_year
         [shot_event "A. Player" "3-pt jump shot" "miss" 28 45;
          rebound_event "B. Player" "offensive" 43;
          shot_event "B. Player" "3-pt jump shot" "make" 27 40]) K3_26_30
    = Fin e
    /\ calc_exp_pts_w_orb_year (fun q => q)
         (calc_shots_year
            [shot_event "A. Player" "3-pt jump shot" "miss" 28 45;
             rebound_event "B. Player" "offensive" 43;
             shot_event "B. Player" "3-pt jump shot" "make" 27 40])
         (credit (fun _ => 0) K3_26_30 1) (Fin 1) K3_26_30
       = Fin ew
    /\ (e <= ew)%Q.
Proof.
  apply (exp_pts_w_orb_ge_exp_pts (fun q => q)).
  - intros x y H. exact H.
  - reflexivity.
  - intro x. reflexivity.
  - simpl. discriminate.
  - simpl. discriminate.
  - discriminate.
Defined.

(** ** Event Filter *)

Lemma names_team_literal (team : string) (r : row) :
  re_literal team = true ->
  str_contains_na_false (Shooter r) team
  || str_contains_na_false (Rebounder r) team
  = names_team team r.
Proof.
  intro Hlit. unfold names_team, str_contains_na_false, cell_contains.
  destruct (Shooter r), (Rebounder r);
    rewrite ?(re_search_literal team _ Hlit); reflexivity.
Qed.

(** C9, as stated, fails: the team token is searched for as a regular
    expression, so with the token "." a row is kept although neither
    identity contains a dot. *)
Lemma dot_token_keeps_row :
  clean_data [shot_play "LeBron James" "2-pt layup" "make" 2 115] "."
  = [shot_event "LeBron James" "2-pt layup" "make" 2 115]
  /\ names_team "." (shot_event "LeBron James" "2-pt layup" "make" 2 115)
     = false.
Proof. split; reflexivity. Qed.

(** C9, amended: the Event Filter keeps the seven shot/rebound columns and
    drops a row if and only if fewer than two of them are populated; given a
    team token without regular-expression metacharacters, it further keeps
    exactly the rows whose shooter or rebounder contains the token as a
    substring, a missing identity matching nothing. *)
Theorem clean_data_rows (data : list Raw.event) (team : string) :
  team <> "ALL" -> re_literal team = true ->
  clean_data data "ALL"
  = filter (fun r => negb (fewer_than_two_populated r))
           (map select_columns data)
  /\ clean_data data team
     = filter (names_team team) (clean_data data "ALL").
Proof.
  intros Hteam Hlit. unfold clean_data, dropna.
  apply String.eqb_neq in Hteam. rewrite Hteam. simpl. split.
  - apply filter_ext. intro r. unfold fewer_than_two_populated.
    rewrite Nat.ltb_antisym, negb_involutive. reflexivity.
  - apply filter_ext. intro r. apply names_team_literal, Hlit.
Qed.

Lemma clean_data_rows_witness :
  clean_data
    [shot_play "LAL James" "2-pt layup" "miss" 2 115;
     rebound_play "BOS Tatum" "defensive" 113;
     turnover_play "bad pass" 90] "ALL"
  = filter (fun r => negb (fewer_than_two_populated r))
           (map select_columns
                [shot_play "LAL James" "2-pt layup" "miss" 2 115;
                 rebound_play "BOS Tatum" "defensive" 113;
                 turnover_play "bad pass" 90])
  /\ clean_data
       [shot_play "LAL James" "2-pt layup" "miss" 2 115;
        rebound_play "BOS Tatum" "defensive" 113;
        turnover_play "bad pass" 90] "LAL"
     = filter (names_team "LAL")
              (clean_data
                 [shot_play "LAL James" "2-pt layup" "miss" 2 115;
                  rebound_play "BOS Tatum" "defensive" 113;
                  turnover_play "bad pass" 90] "ALL").
Proof.
  apply clean_data_rows; [discriminate | reflexivity].
Defined.

(** ** The scenarios of the specification, run on the model *)

Example one_made_layup :
  calc_shots_year [shot_event "A. Player" "2-pt layup" "make" 3 100] K2_0_5
  = {| attempts := 1; makes := 1 |}
  /\ calc_exp_pts_year (fun q => q)
       (calc_shots_year [shot_event "A. Player" "2-pt layup" "make" 3 100])
       K2_0_5 = Fin (2 * (1 / 1))
  /\ calc_exp_pts_year (fun q => q)
       (calc_shots_year [shot_event "A. Player" "2-pt layup" "make" 3 100])
       K3_over_30 = NaN.
Proof. repeat split. Qed.

Example missed_three_recovered :
  exists rebs,
    calc_rebs_year [shot_event "A. Player" "3-pt jump shot" "miss" 28 47;
                    rebound_event "B. Player" "offensive" 45] = Returns rebs
    /\ rebs K3_26_30 = 1.
Proof. eexists. split; reflexivity. Qed.

Example boundaries_go_to_the_lower_bin :
  map (fun d => missed_shot_key (Some "2-pt jump shot") (Some d))
      [0; 5; 10; 15]%Q
  = [Returns K2_0_5; Returns K2_0_5; Returns K2_6_10; Returns K2_11_15]
  /\ map (fun d => missed_shot_key (Some "3-pt jump shot") (Some d))
         [25; 30]%Q
     = [Returns K3_under_26; Returns K3_26_30].
Proof. split; reflexivity. Qed.

(** * Further properties of the code *)

(** ** clean_data *)

Lemma clean_data_app (d1 d2 : list Raw.event) (team : string) :
  clean_data (d1 ++ d2) team = clean_data d1 team ++ clean_data d2 team.
Proof.
  unfold clean_data, dropna. rewrite map_app, filter_app.
  destruct (negb (String.eqb team "ALL")); [apply filter_app | reflexivity].
Qed.

Lemma clean_data_drops (e : Raw.event) (team : string) :
  non_na (select_columns e) < 2 -> clean_data [e] team = [].
Proof.
  intro H. unfold clean_data, dropna. simpl.
  destruct (non_na (select_columns e)) as [|[|n]]; [| |lia];
    simpl; destruct (negb (String.eqb team "ALL")); reflexivity.
Qed.

(** X1: a play that has no shot cell and no rebound cell (a turnover, a free
    throw, the end-of-game row) never reaches the cleaned table, whatever its
    seconds cell and whatever the team: the table is cleaned as if the play
    were not there. *)
Theorem clean_data_drops_other_plays
  (d1 d2 : list Raw.event) (e : Raw.event) (team : string) :
  no_shot_or_rebound_cell e ->
  clean_data (d1 ++ e :: d2) team = clean_data (d1 ++ d2) team.
Proof.
  intros (H1 & H2 & H3 & H4 & H5 & H6).
  change (e :: d2) with ([e] ++ d2). rewrite !clean_data_app.
  rewrite (clean_data_drops e team); [reflexivity|].
  unfold non_na, select_columns. simpl. rewrite H1, H2, H3, H4, H5, H6. simpl.
  destruct (Raw.SecLeft e); simpl; lia.
Qed.

Lemma clean_data_drops_other_plays_witness :
  clean_data
    ([shot_play "A. Player" "2-pt layup" "miss" 2 100]
       ++ turnover_play "bad pass" 95
       :: [rebound_play "B. Player" "defensive" 90]) "ALL"
  = clean_data
      ([shot_play "A. Player" "2-pt layup" "miss" 2 100]
         ++ [rebound_play "B. Player" "defensive" 90]) "ALL".
Proof.
  apply clean_data_drops_other_plays. repeat split.
Defined.

(** X2: under a team filter every row that is kept names a shooter or a
    rebounder; a row with both identities missing is never kept, whatever
    the token. *)
Theorem team_filter_needs_identity
  (data : list Raw.event) (team : string) (r : row) :
  team <> "ALL" -> In r (clean_data data team) ->
  Shooter r <> None \/ Rebounder r <> None.
Proof.
  intros Hteam Hin. unfold clean_data in Hin.
  apply String.eqb_neq in Hteam. rewrite Hteam in Hin. simpl in Hin.
  apply filter_In in Hin as [_ Hm].
  apply orb_prop in Hm as [Hm|Hm]; [left|right]; intro Hnone;
    rewrite Hnone in Hm; discriminate Hm.
Qed.

Lemma team_filter_needs_identity_witness :
  Shooter (shot_event "LAL James" "2-pt layup" "miss" 2 115) <> None
  \/ Rebounder (shot_event "LAL James" "2-pt layup" "miss" 2 115) <> None.
Proof.
  apply (team_filter_needs_identity
           [shot_play "LAL James" "2-pt layup" "miss" 2 115] "LAL").
  - discriminate.
  - left. reflexivity.
Defined.

Lemma made_selected_is_kept (c : category) (r : row) :
  selects c r = true -> cell_eq (ShotOutcome r) "make" = true ->
  (2 <=? non_na r) = true.
Proof.
  intros Hsel Hmake. apply Nat.leb_le. unfold non_na.
  destruct (ShotDist r) as [d|] eqn:Hd;
    [|rewrite (selects_no_distance r c Hd) in Hsel; discriminate Hsel].
  destruct (ShotOutcome r) as [o|]; [|discriminate Hmake].
  simpl. destruct (notnull (Shooter r)), (notnull (ShotType r)),
    (notnull (Rebounder r)), (notnull (ReboundType r)), (notnull (SecLeft r));
    simpl; lia.
Qed.

Lemma filter_narrowed {A : Type} (keep sel mk : A -> bool) (l : list A) :
  (forall a, sel a = true -> mk a = true -> keep a = true) ->
  filter mk (filter sel (filter keep l)) = filter mk (filter sel l).
Proof.
  intro H. induction l as [|a l IH]; [reflexivity|].
  cbn [filter].
  destruct (keep a) eqn:Ek, (sel a) eqn:Es; cbn [filter]; rewrite ?Es;
    cbn [filter]; try exact IH.
  - destruct (mk a); [f_equal|]; exact IH.
  - destruct (mk a) eqn:Em; [|exact IH].
    rewrite (H a Es Em) in Ek. discriminate Ek.
Qed.

(** X3: dropping the rows with fewer than two cells never loses a made
    shot: for every category the makes counted on the cleaned table are the
    makes counted on the seven columns before [dropna]. *)
Theorem dropna_keeps_makes (data : list Raw.event) (c : category) :
  makes (calc_shots_year (clean_data data "ALL") c)
  = makes (calc_shots_year (map select_columns data) c).
Proof.
  rewrite !makes_filter. unfold clean_data, dropna, made. simpl negb. cbv iota.
  f_equal. apply filter_narrowed. intros r Hsel Hmake.
  exact (made_selected_is_kept c r Hsel Hmake).
Qed.

(** ** calc_ppp *)

Lemma sum_skipna_app (l1 l2 : list (option Z)) :
  sum_skipna (l1 ++ l2) = (sum_skipna l1 + sum_skipna l2)%Z.
Proof.
  induction l1 as [|c l1 IH]; simpl; [reflexivity|].
  destruct c; rewrite IH; lia.
Qed.

Lemma len_app {A : Type} (l1 l2 : list A) :
  len (l1 ++ l2) = (len l1 + len l2)%Z.
Proof. unfold len. rewrite length_app. lia. Qed.

Lemma pts_app (d1 d2 : list Raw.event) : pts (d1 ++ d2) = (pts d1 + pts d2)%Z.
Proof.
  unfold pts, pts_data. rewrite filter_app, !map_app, !sum_skipna_app. lia.
Qed.

Lemma total_orbs_app (d1 d2 : list Raw.event) :
  total_orbs (d1 ++ d2) = (total_orbs d1 + total_orbs d2)%Z.
Proof.
  unfold total_orbs, orbs_data, ft_orbs_data. rewrite !filter_app, !len_app. lia.
Qed.

Lemma total_poss_app (d1 d2 : list Raw.event) :
  total_poss (d1 ++ d2) = (total_poss d1 + total_poss d2)%Z.
Proof.
  unfold total_poss, poss_data. rewrite total_orbs_app, filter_app, len_app. lia.
Qed.

Lemma total_poss_insert (d1 d2 plays : list Raw.event) :
  total_poss (d1 ++ plays ++ d2)
  = (total_poss (d1 ++ d2) + total_poss plays)%Z.
Proof. rewrite !total_poss_app. lia. Qed.

Lemma pts_permutation (d d' : list Raw.event) :
  Permutation d d' -> pts d = pts d'.
Proof.
  induction 1 as [|e d d' _ IH|e1 e2 d|d d' d'' _ IH1 _ IH2].
  - reflexivity.
  - change (e :: d) with ([e] ++ d). change (e :: d') with ([e] ++ d').
    rewrite !pts_app, IH. reflexivity.
  - change (e2 :: e1 :: d) with ([e2] ++ [e1] ++ d).
    change (e1 :: e2 :: d) with ([e1] ++ [e2] ++ d).
    rewrite !pts_app. lia.
  - congruence.
Qed.

(** X4: the Possession Counter does not depend on the order of the rows:
    two tables with the same rows in any order get the same points, the same
    possessions and the same PPP. *)
Theorem calc_ppp_permutation (rnd : Q -> Q) (data data' : list Raw.event) :
  Permutation data data' ->
  pts data = pts data' /\ total_poss data = total_poss data'
  /\ calc_ppp rnd data = calc_ppp rnd data'.
Proof.
  intro Hp. pose proof (pts_permutation _ _ Hp) as Hpts.
  destruct (possession_counts_permutation _ _ Hp) as (_ & _ & Hposs).
  unfold calc_ppp. rewrite Hpts, Hposs. auto.
Qed.

Lemma calc_ppp_permutation_witness :
  pts [end_of_game 101 99; shot_play "A. Player" "2-pt layup" "make" 2 100]
  = pts [shot_play "A. Player" "2-pt layup" "make" 2 100; end_of_game 101 99]
  /\ total_poss
       [end_of_game 101 99; shot_play "A. Player" "2-pt layup" "make" 2 100]
     = total_poss
         [shot_play "A. Player" "2-pt layup" "make" 2 100; end_of_game 101 99]
  /\ calc_ppp (fun q => q)
       [end_of_game 101 99; shot_play "A. Player" "2-pt layup" "make" 2 100]
     = calc_ppp (fun q => q)
         [shot_play "A. Player" "2-pt layup" "make" 2 100; end_of_game 101 99].
Proof.
  apply calc_ppp_permutation. apply perm_swap.
Defined.

(** X5: points and possessions add up over concatenated tables: a season
    made of two stretches of games has the points and the possessions of
    both. *)
Theorem possessions_additive (d1 d2 : list Raw.event) :
  pts (d1 ++ d2) = (pts d1 + pts d2)%Z
  /\ len (poss_data (d1 ++ d2)) = (len (poss_data d1) + len (poss_data d2))%Z
  /\ total_orbs (d1 ++ d2) = (total_orbs d1 + total_orbs d2)%Z
  /\ total_poss (d1 ++ d2) = (total_poss d1 + total_poss d2)%Z.
Proof.
  repeat split.
  - apply pts_app.
  - unfold poss_data. rewrite filter_app. apply len_app.
  - apply total_orbs_app.
  - apply total_poss_app.
Qed.

(** X6: the offensive rebound that follows a missed free throw which is not
    the last of its trip is not taken off the possessions: with the two rows
    in the table the count of qualifying offensive rebounds is what it is
    without them. *)
Theorem free_throw_rebound_not_subtracted
  (d1 d2 : list Raw.event) (label : string) (ft_sec : Z)
  (rebounder : string) (sec : Z) :
  non_final_label label -> sec <> 0%Z ->
  total_orbs (d1 ++ [free_throw_play label "miss" ft_sec;
                     rebound_play rebounder "offensive" sec] ++ d2)
  = total_orbs (d1 ++ d2).
Proof.
  intros Hlabel Hsec. rewrite !total_orbs_app.
  assert (H : total_orbs [free_throw_play label "miss" ft_sec;
                          rebound_play rebounder "offensive" sec] = 0%Z).
  { apply Z.eqb_neq in Hsec.
    unfold total_orbs, orbs_data, ft_orbs_data, len. cbn.
    unfold not_end_of_q, cell_ne0. cbn. rewrite Hsec.
    destruct Hlabel as [ -> | [ -> | -> ] ]; reflexivity. }
  rewrite H. lia.
Qed.

Lemma free_throw_rebound_not_subtracted_witness :
  total_orbs ([shot_play "A. Player" "2-pt layup" "miss" 2 100]
                ++ [free_throw_play "1 of 2" "miss" 90;
                    rebound_play "Team" "offensive" 90]
                ++ [free_throw_play "2 of 2" "make" 90])
  = total_orbs ([shot_play "A. Player" "2-pt layup" "miss" 2 100]
                  ++ [free_throw_play "2 of 2" "make" 90]).
Proof.
  apply free_throw_rebound_not_subtracted.
  - left. reflexivity.
  - discriminate.
Defined.

(** X7: a rebound recorded with no second left in the period changes
    neither the rebound count nor the possessions, whatever its type. *)
Theorem end_of_period_rebound_ignored
  (d1 d2 : list Raw.event) (rebounder kind : string) :
  total_orbs (d1 ++ rebound_play rebounder kind 0 :: d2) = total_orbs (d1 ++ d2)
  /\ total_poss (d1 ++ rebound_play rebounder kind 0 :: d2)
     = total_poss (d1 ++ d2).
Proof.
  change (rebound_play rebounder kind 0 :: d2)
    with ([rebound_play rebounder kind 0] ++ d2).
  rewrite !total_poss_app, !total_orbs_app.
  assert (H : total_orbs [rebound_play rebounder kind 0] = 0%Z).
  { unfold total_orbs, orbs_data, ft_orbs_data, len. cbn.
    unfold orb. cbn. destruct (String.eqb kind "offensive"); reflexivity. }
  assert (H' : total_poss [rebound_play rebounder kind 0] = 0%Z).
  { unfold total_poss. rewrite H. reflexivity. }
  rewrite H, H'. lia.
Qed.

(** X8: a free throw that is not missed adds one possession when it opens a
    trip of two or three ("1 of 2", "1 of 3") and none otherwise: and-ones,
    technical free throws and the later attempts of a trip do not count. *)
Theorem free_throw_possessions
  (d1 d2 : list Raw.event) (label result : string) (sec : Z) :
  result <> "miss" ->
  total_poss (d1 ++ free_throw_play label result sec :: d2)
  = (total_poss (d1 ++ d2)
     + (if String.eqb label "1 of 2" || String.eqb label "1 of 3"
        then 1 else 0))%Z.
Proof.
  intro Hres. apply String.eqb_neq in Hres.
  change (free_throw_play label result sec :: d2)
    with ([free_throw_play label result sec] ++ d2).
  rewrite total_poss_insert. f_equal.
  unfold total_poss, total_orbs, poss_data, orbs_data, ft_orbs_data, len. cbn.
  unfold ft_miss, ft_1_of_2, ft_1_of_3. cbn. rewrite Hres. cbn.
  destruct (String.eqb label "1 of 2"), (String.eqb label "1 of 3");
    reflexivity.
Qed.

Lemma free_throw_possessions_witness :
  total_poss ([shot_play "A. Player" "2-pt layup" "make" 2 100]
                ++ free_throw_play "1 of 1" "make" 100 :: [])
  = (total_poss ([shot_play "A. Player" "2-pt layup" "make" 2 100] ++ [])
     + (if String.eqb "1 of 1" "1 of 2" || String.eqb "1 of 1" "1 of 3"
        then 1 else 0))%Z.
Proof.
  apply free_throw_possessions. discriminate.
Defined.

(** ** calc_shots *)

Lemma filter_permutation {A : Type} (f : A -> bool) (l l' : list A) :
  Permutation l l' -> Permutation (filter f l) (filter f l').
Proof.
  induction 1 as [|a l l' _ IH|a b l|l l' l'' _ IH1 _ IH2]; simpl.
  - constructor.
  - destruct (f a); [constructor|]; exact IH.
  - destruct (f a), (f b); try apply Permutation_refl. apply perm_swap.
  - eapply perm_trans; eassumption.
Qed.

(** X9: the Shot Binner does not depend on the order of the rows: every
    category has the same attempts and makes on two tables with the same
    rows. *)
Theorem calc_shots_year_permutation (year year' : list row) (c : category) :
  Permutation year year' ->
  calc_shots_year year c = calc_shots_year year' c.
Proof.
  intro Hp. rewrite !calc_shots_year_filter. unfold count_shots, made.
  pose proof (filter_permutation (selects c) _ _ Hp) as Hsel.
  rewrite (Permutation_length Hsel).
  rewrite (Permutation_length (filter_permutation _ _ _ Hsel)).
  reflexivity.
Qed.

Lemma calc_shots_year_permutation_witness :
  calc_shots_year [shot_event "A. Player" "2-pt layup" "make" 2 100;
                   shot_event "B. Player" "3-pt jump shot" "miss" 24 80]
                  K3_under_26
  = calc_shots_year [shot_event "B. Player" "3-pt jump shot" "miss" 24 80;
                     shot_event "A. Player" "2-pt layup" "make" 2 100]
                    K3_under_26.
Proof.
  apply calc_shots_year_permutation. apply perm_swap.
Defined.

(** X10: tallies add up over concatenated tables: attempts and makes of
    every category on two stretches of rows are the sums of the attempts and
    makes on each. *)
Theorem calc_shots_year_app (year1 year2 : list row) (c : category) :
  attempts (calc_shots_year (year1 ++ year2) c)
  = attempts (calc_shots_year year1 c) + attempts (calc_shots_year year2 c)
  /\ makes (calc_shots_year (year1 ++ year2) c)
     = makes (calc_shots_year year1 c) + makes (calc_shots_year year2 c).
Proof.
  rewrite !attempts_filter, !makes_filter. unfold made.
  rewrite !filter_app, !length_app. auto.
Qed.

Lemma times_counted_le_2 (r : row) : times_counted r <= 2.
Proof.
  destruct (ShotDist r) as [d|] eqn:Hd;
    [|rewrite (times_counted_no_distance r Hd); lia].
  rewrite times_counted_sum. unfold keys. cbn [map list_sum fold_right].
  unfold selects. rewrite Hd.
  destruct (str_contains (ShotType r) "2-pt"),
    (str_contains (ShotType r) "3-pt");
    by_band d Hb; lia.
Qed.

(** X11: no row is counted in more than two categories and a row without a
    distance in none, so the attempts of a season add up to at most twice
    the number of rows that carry a distance. *)
Theorem total_attempts_bound (year : list row) :
  total_attempts year <= 2 * List.length (with_distance year).
Proof.
  induction year as [|r year IH]; [reflexivity|].
  rewrite total_attempts_cons. unfold with_distance in *. simpl.
  destruct (ShotDist r) as [d|] eqn:Hd; simpl.
  - pose proof (times_counted_le_2 r). lia.
  - rewrite (times_counted_no_distance r Hd). lia.
Qed.

(** X12: in every category of every table, cleaned or not, the makes and
    the misses selected for the category together do not exceed the
    attempts; in particular makes <= attempts. *)
Theorem makes_and_misses_within_attempts (year : list row) (c : category) :
  makes (calc_shots_year year c) <= attempts (calc_shots_year year c)
  /\ List.length (filter (fun r => is_miss r && selects c r) year)
     + makes (calc_shots_year year c)
     <= attempts (calc_shots_year year c).
Proof.
  split; [apply makes_le_attempts|].
  exact (misses_le_attempts_minus_makes year c).
Qed.

(** ** calc_rebs *)

Lemma missed_shot_key_returns (r : row) :
  key_defined r = true ->
  exists k, missed_shot_key (ShotType r) (ShotDist r) = Returns k.
Proof.
  unfold key_defined, missed_shot_key. intro H.
  destruct (dist_le (ShotDist r) 5); [eauto|].
  destruct (dist_le (ShotDist r) 10); [eauto|].
  destruct (dist_le (ShotDist r) 15); [eauto|].
  destruct (ShotType r) as [tag|]; [|discriminate H].
  destruct (contains "2-pt" tag); [eauto|].
  destruct (dist_le (ShotDist r) 25); [eauto|].
  destruct (dist_le (ShotDist r) 30); eauto.
Qed.

Lemma dist_le_mono (d : option Q) (a b : Q) :
  (a <= b)%Q -> dist_le d a = true -> dist_le d b = true.
Proof.
  destruct d as [x|]; simpl; [apply Qle_bool_mono | discriminate].
Qed.

Lemma missed_shot_key_raises (r : row) :
  key_defined r = false ->
  missed_shot_key (ShotType r) (ShotDist r) = Raises TypeError.
Proof.
  unfold key_defined, missed_shot_key. intro H.
  apply orb_false_elim in H as [H15 Hty].
  assert (H5 : dist_le (ShotDist r) 5 = false).
  { destruct (dist_le (ShotDist r) 5) eqn:E; [|reflexivity].
    rewrite (dist_le_mono _ 5 15) in H15; [discriminate H15 | lra | exact E]. }
  assert (H10 : dist_le (ShotDist r) 10 = false).
  { destruct (dist_le (ShotDist r) 10) eqn:E; [|reflexivity].
    rewrite (dist_le_mono _ 10 15) in H15; [discriminate H15 | lra | exact E]. }
  rewrite H5, H10, H15.
  destruct (ShotType r); [discriminate Hty | reflexivity].
Qed.

Lemma last_row_cons (a b : row) (l : list row) (P : row -> Prop) :
  (forall pre r, a :: b :: l = pre ++ [r] -> P r)
  <-> (forall pre r, b :: l = pre ++ [r] -> P r).
Proof.
  split; intros H pre r E.
  - apply (H (a :: pre) r). simpl. rewrite E. reflexivity.
  - destruct pre as [|x pre]; simpl in E; [discriminate E|].
    injection E as _ E. exact (H pre r E).
Qed.

Lemma scan_returns_iff (rows : list row) (rebs : category -> nat) :
  (exists res, scan rows rebs = Returns res)
  <-> (forall pre r, rows = pre ++ [r] -> is_miss r = false)
      /\ Forall (fun r => is_miss r = true -> key_defined r = true) rows.
Proof.
  revert rebs. induction rows as [|a rest IH]; intro rebs.
  - simpl. split; [intros _|eauto].
    split; [intros pre r E; destruct pre; discriminate E | constructor].
  - cbn [scan]. fold (is_miss a). destruct (is_miss a) eqn:Em.
    + destruct rest as [|next rest'].
      * split; [intros [res H]; discriminate H|].
        intros [Hend _]. rewrite (Hend [] a eq_refl) in Em. discriminate Em.
      * destruct (key_defined a) eqn:Ek.
        -- destruct (missed_shot_key_returns a Ek) as [k ->]. unfold bind.
           rewrite IH, last_row_cons. split; intros [Hend HF]; split;
             try exact Hend.
           ++ constructor; [intros _; exact Ek | exact HF].
           ++ inversion HF; assumption.
        -- rewrite (missed_shot_key_raises a Ek). unfold bind.
           split; [intros [res H]; discriminate H|].
           intros [_ HF]. inversion HF as [|? ? Ha _]. subst.
           rewrite (Ha Em) in Ek. discriminate Ek.
    + rewrite IH. split; intros [Hend HF]; split.
      * destruct rest as [|b l];
          [|exact (proj2 (last_row_cons a b l (fun r => is_miss r = false)) Hend)].
        intros pre r E. destruct pre as [|x [|y pre]]; simpl in E;
          try discriminate E.
        injection E as <-. exact Em.
      * constructor; [intro H; rewrite H in Em; discriminate Em | exact HF].
      * destruct rest as [|b l];
          [|exact (proj1 (last_row_cons a b l (fun r => is_miss r = false)) Hend)].
        intros pre r E. destruct pre; discriminate E.
      * inversion HF; assumption.
Qed.

(** X13: [calc_rebs] returns a tally for a season exactly when the last row
    of its table is not a missed shot and every missed shot either lies
    within 15 ft or has a type tag; otherwise it raises (IndexError for the
    lookahead, TypeError for the tag test on a missing cell). *)
Theorem calc_rebs_year_returns_iff (year : list row) :
  (exists rebs, calc_rebs_year year = Returns rebs)
  <-> (forall pre r, year = pre ++ [r] -> is_miss r = false)
      /\ Forall (fun r => is_miss r = true -> key_defined r = true) year.
Proof. rewrite calc_rebs_year_scan. apply scan_returns_iff. Qed.

Lemma total_credit (rebs : category -> nat) (k : category) (n : nat) :
  total (credit rebs k n) = total rebs + n.
Proof.
  unfold total, keys, credit. cbn [map list_sum fold_right].
  destruct k; simpl; lia.
Qed.

Lemma scan_total (rows : list row) (rebs res : category -> nat) :
  scan rows rebs = Returns res -> total res = total rebs + recoveries rows.
Proof.
  revert rebs. induction rows as [|a rest IH]; intros rebs H.
  - simpl in H. injection H as <-. simpl. lia.
  - cbn [scan] in H. cbn [recoveries]. fold (is_miss a) in H.
    destruct (is_miss a) eqn:Em.
    + destruct rest as [|next rest']; [discriminate H|].
      destruct (missed_shot_key (ShotType a) (ShotDist a)) as [k|e];
        unfold bind in H; [|discriminate H].
      apply IH in H. rewrite total_credit in H. fold (recovers next) in H.
      rewrite H. simpl andb. destruct (recovers next); simpl; lia.
    + apply IH in H. destruct rest as [|next rest']; simpl in *; lia.
Qed.

Lemma recoveries_le_misses (rows : list row) :
  recoveries rows <= List.length (filter is_miss rows).
Proof.
  induction rows as [|a rest IH]; [reflexivity|].
  cbn [recoveries filter]. destruct rest as [|next rest'].
  - lia.
  - destruct (is_miss a); simpl andb.
    + cbn [List.length]. destruct (recovers next); simpl b2n; lia.
    + simpl b2n. lia.
Qed.

(** X14: when [calc_rebs] returns for a season, the recoveries it credits
    over the seven categories add up to the number of missed shots that are
    immediately followed by an offensive rebound with time left in the
    period, one category being credited for each; they never exceed the
    number of missed shots. *)
Theorem calc_rebs_year_total (year : list row) (rebs : category -> nat) :
  calc_rebs_year year = Returns rebs ->
  total rebs = recoveries year
  /\ total rebs <= List.length (filter is_miss year).
Proof.
  rewrite calc_rebs_year_scan. intro H.
  apply scan_total in H. change (total (fun _ => 0)) with 0 in H. simpl in H.
  split; [exact H|]. rewrite H. apply recoveries_le_misses.
Qed.

Lemma calc_rebs_year_total_witness :
  total (credit (fun _ => 0) K3_26_30 1)
  = recoveries [shot_event "A. Player" "3-pt jump shot" "miss" 28 45;
                rebound_event "B. Player" "offensive" 43]
  /\ total (credit (fun _ => 0) K3_26_30 1)
     <= List.length
          (filter is_miss
                  [shot_event "A. Player" "3-pt jump shot" "miss" 28 45;
                   rebound_event "B. Player" "offensive" 43]).
Proof.
  apply calc_rebs_year_total. reflexivity.
Defined.

Lemma for_each_returns {A B : Type} (f : A -> outcome B) (l : list A)
  (bs : list B) :
  for_each f l = Returns bs <-> Forall2 (fun a b => f a = Returns b) l bs.
Proof.
  revert bs. induction l as [|a l IH]; intro bs; simpl.
  - split; intro H.
    + injection H as <-. constructor.
    + inversion H. reflexivity.
  - destruct (f a) as [b|e] eqn:Ea; simpl.
    + destruct (for_each f l) as [bs'|e'] eqn:El; simpl.
      * split; intro H.
        -- injection H as <-. constructor; [exact Ea | apply IH; reflexivity].
        -- inversion H as [|? b0 ? bs0 Hb Hl]; subst.
           apply IH in Hl. congruence.
      * split; intro H; [discriminate H|].
        inversion H as [|? b0 ? bs0 Hb Hl]; subst.
        apply IH in Hl. discriminate Hl.
    + split; intro H; [discriminate H|].
      inversion H as [|? b0 ? bs0 Hb Hl]; subst. congruence.
Qed.

Lemma for_each_raises {A B : Type} (f : A -> outcome B) (l : list A) (a : A) :
  In a l -> (exists e, f a = Raises e) -> exists e, for_each f l = Raises e.
Proof.
  intros Hin [e He]. induction l as [|x l IH]; [contradiction|].
  simpl. destruct Hin as [->|Hin].
  - rewrite He. simpl. eauto.
  - destruct (f x) as [b|e']; simpl; [|eauto].
    destruct (IH Hin) as [e'' ->]. simpl. eauto.
Qed.

(** X15: over several seasons [calc_rebs] returns exactly when it returns
    for each season, and then the list it returns holds the tally of each
    season, in the order of the seasons. *)
Theorem calc_rebs_returns_iff (data : list (list row))
  (rebs_data : list (category -> nat)) :
  calc_rebs data = Returns rebs_data
  <-> Forall2 (fun year rebs => calc_rebs_year year = Returns rebs)
              data rebs_data.
Proof. apply for_each_returns. Qed.

(** X16: one season whose table ends with a missed shot makes [calc_rebs]
    raise for the whole list of seasons: no tally is returned for any of
    them. *)
Theorem calc_rebs_aborts_on_one_season
  (data : list (list row)) (pre : list row) (r : row) :
  In (pre ++ [r]) data -> is_miss r = true ->
  exists e, calc_rebs data = Raises e.
Proof.
  intros Hin Hmiss. apply (for_each_raises _ _ (pre ++ [r]) Hin).
  destruct (calc_rebs_year (pre ++ [r])) as [rebs|e] eqn:E; [|eauto].
  assert (Hret : exists rebs, calc_rebs_year (pre ++ [r]) = Returns rebs)
    by eauto.
  apply calc_rebs_year_returns_iff in Hret as [Hend _].
  rewrite (Hend pre r eq_refl) in Hmiss. discriminate Hmiss.
Qed.

Lemma calc_rebs_aborts_on_one_season_witness :
  exists e,
    calc_rebs
      [[shot_event "A. Player" "2-pt layup" "make" 1 30];
       [shot_event "A. Player" "2-pt layup" "make" 1 30]
         ++ [shot_event "B. Player" "3-pt jump shot" "miss" 27 2]]
    = Raises e.
Proof.
  apply (calc_rebs_aborts_on_one_season _
           [shot_event "A. Player" "2-pt layup" "make" 1 30]
           (shot_event "B. Player" "3-pt jump shot" "miss" 27 2)).
  - right. left. reflexivity.
  - reflexivity.
Defined.

(** ** calc_exp_pts and calc_exp_pts_w_orb *)

(** X17: a category in which the Shot Binner counted no attempt gets NaN as
    expected points, with and without rebound value and whatever the
    recoveries and the PPP: the division 0 / 0 raises nothing. *)
Theorem no_attempt_gives_nan (rnd : Q -> Q) (year : list row)
  (rebs : category -> nat) (ppp : npfloat) (c : category) :
  attempts (calc_shots_year year c) = 0 ->
  calc_exp_pts_year rnd (calc_shots_year year) c = NaN
  /\ calc_exp_pts_w_orb_year rnd (calc_shots_year year) rebs ppp c = NaN.
Proof.
  intro Ha. pose proof (makes_le_attempts year c) as Hm.
  rewrite Ha in Hm. apply Nat.le_0_r in Hm.
  unfold calc_exp_pts_year, calc_exp_pts_w_orb_year.
  destruct c; cbn [keys map array_divide item nth]; rewrite Ha, Hm;
    split; reflexivity.
Qed.

Lemma no_attempt_gives_nan_witness :
  calc_exp_pts_year (fun q => q)
    (calc_shots_year [shot_event "A. Player" "2-pt layup" "make" 3 100])
    K3_over_30 = NaN
  /\ calc_exp_pts_w_orb_year (fun q => q)
       (calc_shots_year [shot_event "A. Player" "2-pt layup" "make" 3 100])
       (fun _ => 0) (Fin 1) K3_over_30 = NaN.
Proof.
  apply no_attempt_gives_nan. reflexivity.
Defined.

Section RoundedEntries.

Variable rnd : Q -> Q.

Hypothesis rnd_monotone : forall x y : Q, (x <= y)%Q -> (rnd x <= rnd y)%Q.
Hypothesis rnd_zero : (rnd 0 == 0)%Q.
Hypothesis rnd_idempotent : forall x : Q, (rnd (rnd x) == rnd x)%Q.

(** Whole numbers this small are floats. *)
Hypothesis rnd_one : (rnd 1 == 1)%Q.
Hypothesis rnd_two : (rnd 2 == 2)%Q.
Hypothesis rnd_three : (rnd 3 == 3)%Q.

Lemma rnd_proper (x y : Q) : (x == y)%Q -> (rnd x == rnd y)%Q.
Proof.
  intro H. apply Qle_antisym; apply rnd_monotone; rewrite H; apply Qle_refl.
Qed.

Lemma entry_without_recovery (value : Q) (m a : nat) (ppp : Q) :
  a <> 0 ->
  exists e ew : Q,
    np_mul rnd (Fin value) (np_true_divide rnd (Z.of_nat m) (Z.of_nat a)) = Fin e
    /\ np_add rnd
         (np_mul rnd (Fin value) (np_true_divide rnd (Z.of_nat m) (Z.of_nat a)))
         (np_mul rnd (np_true_divide rnd (Z.of_nat 0) (Z.of_nat a)) (Fin ppp))
       = Fin ew
    /\ (ew == e)%Q.
Proof.
  intro Ha. rewrite !(np_true_divide_finite rnd) by exact Ha. simpl.
  eexists. eexists. split; [reflexivity|]. split; [reflexivity|].
  set (e := rnd (value * rnd (inject_Z (Z.of_nat m) / inject_Z (Z.of_nat a)))).
  assert (H0 : (rnd (inject_Z 0 / inject_Z (Z.of_nat a)) == 0)%Q).
  { transitivity (rnd 0); [|exact rnd_zero]. apply rnd_proper.
    unfold Qdiv. apply Qmult_0_l. }
  assert (Hy : (rnd (rnd (inject_Z 0 / inject_Z (Z.of_nat a)) * ppp) == 0)%Q).
  { transitivity (rnd 0); [|exact rnd_zero]. apply rnd_proper.
    rewrite H0. apply Qmult_0_l. }
  transitivity (rnd e); [|apply rnd_idempotent].
  apply rnd_proper. rewrite Hy. apply Qplus_0_r.
Qed.

(** X18: for a category with attempts and without any recovery, the
    expected points with rebound value equal the expected points without,
    whatever the (finite) PPP. *)
Theorem no_recovery_same_entry
  (shots : category -> tally) (rebs : category -> nat) (ppp : Q)
  (c : category) :
  attempts (shots c) <> 0 -> rebs c = 0 ->
  exists e ew : Q,
    calc_exp_pts_year rnd shots c = Fin e
    /\ calc_exp_pts_w_orb_year rnd shots rebs (Fin ppp) c = Fin ew
    /\ (ew == e)%Q.
Proof.
  intros Ha Hr.
  unfold calc_exp_pts_year, calc_exp_pts_w_orb_year.
  destruct c; cbn [keys map array_divide item nth]; rewrite Hr;
    exact (entry_without_recovery _ _ _ ppp Ha).
Qed.

Lemma ratio_le_1 (m a : nat) :
  a <> 0 -> m <= a ->
  (inject_Z (Z.of_nat m) / inject_Z (Z.of_nat a) <= 1)%Q.
Proof.
  intros Ha Hm. apply Qle_shift_div_r.
  - change 0%Q with (inject_Z 0). rewrite <- Zlt_Qlt. lia.
  - rewrite Qmult_1_l. rewrite <- Zle_Qle. lia.
Qed.

Lemma entry_bounds (value : Q) (m a : nat) :
  (0 <= value)%Q -> (rnd value == value)%Q -> a <> 0 -> m <= a ->
  exists e : Q,
    np_mul rnd (Fin value) (np_true_divide rnd (Z.of_nat m) (Z.of_nat a)) = Fin e
    /\ (0 <= e <= value)%Q.
Proof.
  intros Hv Hrv Ha Hm. rewrite (np_true_divide_finite rnd) by exact Ha. simpl.
  eexists. split; [reflexivity|].
  set (p := rnd (inject_Z (Z.of_nat m) / inject_Z (Z.of_nat a))).
  assert (Hp0 : (0 <= p)%Q).
  { apply Qle_trans with (rnd 0); [rewrite rnd_zero; apply Qle_refl|].
    apply rnd_monotone, (ratio_nonneg m a Ha). }
  assert (Hp1 : (p <= 1)%Q).
  { apply Qle_trans with (rnd 1); [|rewrite rnd_one; apply Qle_refl].
    apply rnd_monotone, ratio_le_1; assumption. }
  split.
  - apply Qle_trans with (rnd 0); [rewrite rnd_zero; apply Qle_refl|].
    apply rnd_monotone, Qmult_le_0_compat; assumption.
  - apply Qle_trans with (rnd value); [|rewrite Hrv; apply Qle_refl].
    apply rnd_monotone. nra.
Qed.

(** X19: on the tallies of the Shot Binner, the expected points of a
    category with attempts lie between 0 and the point value of the
    category, 2 or 3. *)
Theorem exp_pts_bounds (year : list row) (c : category) :
  attempts (calc_shots_year year c) <> 0 ->
  exists e : Q,
    calc_exp_pts_year rnd (calc_shots_year year) c = Fin e
    /\ (0 <= e <= point_value c)%Q.
Proof.
  intro Ha. pose proof (makes_le_attempts year c) as Hm.
  unfold calc_exp_pts_year.
  destruct c; cbn [keys map array_divide item nth point_value];
    first [ exact (entry_bounds 2 _ _ ltac:(discriminate) rnd_two Ha Hm)
          | exact (entry_bounds 3 _ _ ltac:(discriminate) rnd_three Ha Hm) ].
Qed.

End RoundedEntries.

Lemma no_recovery_same_entry_witness :
  exists e ew : Q,
    calc_exp_pts_year (fun q => q)
      (calc_shots_year [shot_event "A. Player" "2-pt layup" "make" 3 100;
                        shot_event "B. Player" "2-pt layup" "miss" 2 90;
                        rebound_event "C. Player" "defensive" 88]) K2_0_5
    = Fin e
    /\ calc_exp_pts_w_orb_year (fun q => q)
         (calc_shots_year [shot_event "A. Player" "2-pt layup" "make" 3 100;
                           shot_event "B. Player" "2-pt layup" "miss" 2 90;
                           rebound_event "C. Player" "defensive" 88])
         (fun _ => 0) (Fin 1) K2_0_5
       = Fin ew
    /\ (ew == e)%Q.
Proof.
  apply (no_recovery_same_entry (fun q => q)).
  - intros x y H. exact H.
  - reflexivity.
  - intro x. reflexivity.
  - simpl. discriminate.
  - reflexivity.
Defined.

Lemma exp_pts_bounds_witness :
  exists e : Q,
    calc_exp_pts_year (fun q => q)
      (calc_shots_year [shot_event "A. Player" "3-pt jump shot" "make" 24 100;
                        shot_event "B. Player" "3-pt jump shot" "miss" 23 90])
      K3_under_26
    = Fin e
    /\ (0 <= e <= point_value K3_under_26)%Q.
Proof.
  apply (exp_pts_bounds (fun q => q)).
  - intros x y H. exact H.
  - reflexivity.
  - reflexivity.
  - reflexivity.
  - reflexivity.
  - simpl. discriminate.
Defined.

Lemma list_item_app_here {A : Type} (pre suf : list A) :
  list_item (pre ++ suf) (List.length pre)
  = match suf with a :: _ => Returns a | [] => Raises IndexError end.
Proof.
  unfold list_item. rewrite nth_error_app2 by lia. rewrite Nat.sub_diag.
  destruct suf; reflexivity.
Qed.

Lemma for_each_seasons_zip (rnd : Q -> Q)
  (shots2 shots1 : list (category -> tally))
  (rebs1 rebs2 : list (category -> nat)) (ppp1 ppp2 : list npfloat) :
  List.length rebs1 = List.length shots1 ->
  List.length ppp1 = List.length shots1 ->
  for_each (fun i =>
              shots_i <- list_item (shots1 ++ shots2) i ;;
              rebs_i <- list_item (rebs1 ++ rebs2) i ;;
              ppp_i <- list_item (ppp1 ++ ppp2) i ;;
              Returns (calc_exp_pts_w_orb_year rnd shots_i rebs_i ppp_i))
           (seq (List.length shots1) (List.length shots2))
  = zip_seasons rnd shots2 rebs2 ppp2.
Proof.
  revert shots1 rebs1 rebs2 ppp1 ppp2.
  induction shots2 as [|s shots2 IH]; intros shots1 rebs1 rebs2 ppp1 ppp2 Hr Hp.
  - reflexivity.
  - cbn [List.length seq for_each zip_seasons].
    rewrite list_item_app_here. cbn [bind].
    rewrite <- Hr at 1. rewrite list_item_app_here.
    destruct rebs2 as [|r rebs2]; [reflexivity|]. cbn [bind].
    rewrite <- Hp at 1. rewrite list_item_app_here.
    destruct ppp2 as [|p ppp2]; [reflexivity|]. cbn [bind].
    specialize (IH (shots1 ++ [s]) (rebs1 ++ [r]) rebs2 (ppp1 ++ [p]) ppp2).
    rewrite <- !app_assoc, !length_app in IH. cbn [app List.length] in IH.
    rewrite !Nat.add_1_r in IH.
    rewrite IH by lia.
    destruct (zip_seasons rnd shots2 rebs2 ppp2); reflexivity.
Qed.

(** The indexed loop over the seasons and the side-by-side reading agree. *)
Lemma calc_exp_pts_w_orb_zip (rnd : Q -> Q) (shots : list (category -> tally))
  (rebs : list (category -> nat)) (ppp : list npfloat) :
  calc_exp_pts_w_orb rnd shots rebs ppp = zip_seasons rnd shots rebs ppp.
Proof.
  exact (for_each_seasons_zip rnd shots [] [] rebs [] ppp eq_refl eq_refl).
Qed.

Lemma zip_seasons_covered (rnd : Q -> Q) (shots : list (category -> tally))
  (rebs : list (category -> nat)) (ppp : list npfloat) :
  List.length shots <= List.length rebs ->
  List.length shots <= List.length ppp ->
  zip_seasons rnd shots rebs ppp = Returns (seasons_with_orb rnd shots rebs ppp).
Proof.
  revert rebs ppp. induction shots as [|s shots IH]; intros rebs ppp Hr Hp.
  - reflexivity.
  - destruct rebs as [|r rebs]; [simpl in Hr; lia|].
    destruct ppp as [|p ppp]; [simpl in Hp; lia|].
    simpl in Hr, Hp. cbn [zip_seasons].
    rewrite IH by lia. reflexivity.
Qed.

Lemma zip_seasons_short (rnd : Q -> Q) (shots : list (category -> tally))
  (rebs : list (category -> nat)) (ppp : list npfloat) :
  List.length rebs < List.length shots \/ List.length ppp < List.length shots ->
  zip_seasons rnd shots rebs ppp = Raises IndexError.
Proof.
  revert rebs ppp. induction shots as [|s shots IH]; intros rebs ppp H.
  - simpl in H. lia.
  - destruct rebs as [|r rebs]; [reflexivity|].
    destruct ppp as [|p ppp]; [reflexivity|].
    simpl in H. cbn [zip_seasons]. rewrite IH by lia. reflexivity.
Qed.

(** X20: [calc_exp_pts_w_orb] goes by the seasons of the shot tallies.  When
    the rebound tallies and the PPP values cover all of them, it returns one
    dictionary per season of shots, built from the entries at the same
    position, and ignores rebound tallies and PPP values beyond; when either
    list is shorter than the shot tallies, it raises IndexError. *)
Theorem calc_exp_pts_w_orb_seasons (rnd : Q -> Q)
  (shots : list (category -> tally)) (rebs : list (category -> nat))
  (ppp : list npfloat) :
  calc_exp_pts_w_orb rnd shots rebs ppp
  = if (List.length shots <=? List.length rebs)
       && (List.length shots <=? List.length ppp)
    then Returns (seasons_with_orb rnd shots rebs ppp)
    else Raises IndexError.
Proof.
  rewrite calc_exp_pts_w_orb_zip.
  destruct (Nat.leb_spec (List.length shots) (List.length rebs)) as [Hr|Hr];
    [destruct (Nat.leb_spec (List.length shots) (List.length ppp)) as [Hp|Hp]|];
    simpl.
  - apply zip_seasons_covered; assumption.
  - apply zip_seasons_short. right. exact Hp.
  - apply zip_seasons_short. left. exact Hr.
Qed.
